(** * Scrapper-node: the search endpoint of [src/index.js]

    A shallow embedding of the repository's own logic: query validation,
    the scrape configuration and pagination descriptor, the two collector
    callbacks that fill the shared results buffer, the normalizer
    (dedup by title, then [slice]) and the [/search] handler.

    Conventions.
    - A JavaScript string is a [string] holding the bytes of its UTF-8
      encoding; [===] on strings is equality of those bytes, and a string is
      truthy exactly when it is not empty.
    - A JavaScript number that the program handles is an integer or [NaN]
      ([parseInt] returns nothing else); see [JS.number].
    - The external engine ([nodejs-web-scraper]) is not part of the
      repository.  What the program observes of one [scraper.scrape(root)]
      call is a sequence of callback invocations followed by resolution or
      rejection; see [EngineRun]. *)

From Stdlib Require Import ZArith Ascii String.
From stdpp Require Import base list strings gmap.

Local Open Scope Z_scope.

(** ** JavaScript built-ins used by the program *)

Module JS.

(** Numbers: [NaN] and the integers.  Every number the program handles
    comes from [parseInt], an array length or an integer literal; integers
    are kept exact.  A double holds every integer below [2^53] exactly; above
    that the built-in rounds (and gives [Infinity] for very long numerals)
    where this type keeps the exact value, so a statement about the value
    itself is made for numerals below that bound only. *)
Inductive number : Type :=
| NaN
| Int (z : Z).

Definition sub (a b : number) : number :=
  match a, b with
  | Int x, Int y => Int (x - y)
  | _, _ => NaN
  end.

Definition mul (a b : number) : number :=
  match a, b with
  | Int x, Int y => Int (x * y)
  | _, _ => NaN
  end.

(** Relational operators: every comparison with [NaN] is [false]. *)
Definition leb (a b : number) : bool :=
  match a, b with
  | Int x, Int y => x <=? y
  | _, _ => false
  end.

Definition gtb (a b : number) : bool :=
  match a, b with
  | Int x, Int y => y <? x
  | _, _ => false
  end.

(** [ToIntegerOrInfinity]: [NaN] becomes [0]. *)
Definition toIntegerOrInfinity (n : number) : Z :=
  match n with
  | NaN => 0
  | Int z => z
  end.

(** The clamping of a relative index done by [Array.prototype.slice]. *)
Definition relativeIndex (len rel : Z) : Z :=
  if rel <? 0 then Z.max (len + rel) 0 else Z.min rel len.

(** [arr.slice(start, end)]. *)
Definition slice {A} (arr : list A) (start end_ : number) : list A :=
  let len := Z.of_nat (List.length arr) in
  let k := relativeIndex len (toIntegerOrInfinity start) in
  let final := relativeIndex len (toIntegerOrInfinity end_) in
  take (Z.to_nat (final - k)) (drop (Z.to_nat k) arr).

(** [arr.length] as a number. *)
Definition length {A} (arr : list A) : number :=
  Int (Z.of_nat (List.length arr)).

(** [arr.findIndex(p)]: the first index whose element satisfies [p],
    or [-1]. *)
Fixpoint findIndexFrom {A} (p : A -> bool) (arr : list A) (i : Z) : Z :=
  match arr with
  | [] => -1
  | x :: rest => if p x then i else findIndexFrom p rest (i + 1)
  end.

Definition findIndex {A} (p : A -> bool) (arr : list A) : Z :=
  findIndexFrom p arr 0.

(** [arr.filter((element, index, self) => ...)]: the callback also gets
    the index and the array itself. *)
Fixpoint filterFrom {A} (p : A -> Z -> bool) (arr : list A) (i : Z)
  : list A :=
  match arr with
  | [] => []
  | x :: rest =>
      if p x i then x :: filterFrom p rest (i + 1)
      else filterFrom p rest (i + 1)
  end.

Definition filter {A} (p : A -> Z -> list A -> bool) (arr : list A)
  : list A :=
  filterFrom (fun x i => p x i arr) arr 0.

(** [arr.some(p)]. *)
Definition some {A} (p : A -> bool) (arr : list A) : bool :=
  existsb p arr.

(** Truthiness of a string. *)
Definition truthy (s : string) : bool :=
  negb (String.eqb s "").

(** *** White space

    [WhiteSpace] and [LineTerminator] of ECMAScript, each as the bytes of
    its UTF-8 encoding: TAB, LF, VT, FF, CR, SP, U+00A0, U+1680,
    U+2000..U+200A, U+2028, U+2029, U+202F, U+205F, U+3000, U+FEFF. *)
Definition utf8 (bytes : list N) : list ascii := map ascii_of_N bytes.

Definition whiteSpace : list (list ascii) :=
  map utf8
    [ [9]; [10]; [11]; [12]; [13]; [32]; [194; 160]; [225; 154; 128];
      [226; 128; 128]; [226; 128; 129]; [226; 128; 130]; [226; 128; 131];
      [226; 128; 132]; [226; 128; 133]; [226; 128; 134]; [226; 128; 135];
      [226; 128; 136]; [226; 128; 137]; [226; 128; 138]; [226; 128; 168];
      [226; 128; 169]; [226; 128; 175]; [226; 129; 159]; [227; 128; 128];
      [239; 187; 191] ]%N.

Fixpoint stripPrefix (p l : list ascii) : option (list ascii) :=
  match p, l with
  | [], _ => Some l
  | a :: p', b :: l' => if Ascii.eqb a b then stripPrefix p' l' else None
  | _ :: _, [] => None
  end.

Fixpoint stripAny (table : list (list ascii)) (l : list ascii)
  : option (list ascii) :=
  match table with
  | [] => None
  | p :: table' =>
      match stripPrefix p l with
      | Some r => Some r
      | None => stripAny table' l
      end
  end.

(** Drops leading characters of [table]; every round removes at least one
    byte, so [List.length l] rounds are enough. *)
Fixpoint dropLeading (table : list (list ascii)) (fuel : nat)
  (l : list ascii) : list ascii :=
  match fuel with
  | O => l
  | S fuel' =>
      match l with
      | [] => []
      | _ :: _ =>
          match stripAny table l with
          | Some r => dropLeading table fuel' r
          | None => l
          end
      end
  end.

Definition trimStartChars (l : list ascii) : list ascii :=
  dropLeading whiteSpace (List.length l) l.

Definition trimEndChars (l : list ascii) : list ascii :=
  rev (dropLeading (map (@rev ascii) whiteSpace) (List.length l) (rev l)).

(** [s.trim()]. *)
Definition trim (s : string) : string :=
  string_of_list_ascii
    (trimEndChars (trimStartChars (list_ascii_of_string s))).

(** *** [parseInt(s)] with no radix argument *)

Definition digitValue (radix : Z) (c : ascii) : option Z :=
  let n := Z.of_N (N_of_ascii c) in
  let v :=
    if (48 <=? n) && (n <=? 57) then Some (n - 48)
    else if (97 <=? n) && (n <=? 122) then Some (n - 87)
    else if (65 <=? n) && (n <=? 90) then Some (n - 55)
    else None in
  match v with
  | Some d => if d <? radix then Some d else None
  | None => None
  end.

(** The value of the longest prefix of digits; [None] when it is empty. *)
Fixpoint parseDigits (radix : Z) (l : list ascii) (acc : option Z)
  : option Z :=
  match l with
  | [] => acc
  | c :: rest =>
      match digitValue radix c with
      | Some d =>
          parseDigits radix rest
            (Some (match acc with Some a => a * radix + d | None => d end))
      | None => acc
      end
  end.

Definition parseInt (s : string) : number :=
  let str := trimStartChars (list_ascii_of_string s) in
  let '(sign, str) :=
    match str with
    | c :: rest =>
        if Ascii.eqb c "-" then (-1, rest)
        else if Ascii.eqb c "+" then (1, rest)
        else (1, str)
    | [] => (1, str)
    end in
  let '(R, str) :=
    match str with
    | c :: d :: rest =>
        if Ascii.eqb c "0" && (Ascii.eqb d "x" || Ascii.eqb d "X")
        then (16, rest)
        else (10, str)
    | _ => (10, str)
    end in
  match parseDigits R str None with
  | None => NaN
  | Some mathInt => Int (sign * mathInt)
  end.

(** *** [encodeURIComponent(s)] on a well-formed string: every byte of the
    UTF-8 encoding outside the unreserved set becomes [%XX]. *)

Definition uriUnreserved (c : ascii) : bool :=
  let n := Z.of_N (N_of_ascii c) in
  ((48 <=? n) && (n <=? 57)) || ((65 <=? n) && (n <=? 90))
  || ((97 <=? n) && (n <=? 122))
  || existsb (Ascii.eqb c) (list_ascii_of_string "-_.!~*'()").

Definition hexDigit (n : N) : ascii :=
  nth (N.to_nat n) (list_ascii_of_string "0123456789ABCDEF") "0"%char.

Definition percentEncode (c : ascii) : list ascii :=
  let n := N_of_ascii c in
  [ "%"%char; hexDigit (n / 16)%N; hexDigit (n mod 16)%N ].

Definition encodeURIComponent (s : string) : string :=
  string_of_list_ascii
    (concat
       (map (fun c => if uriUnreserved c then [c] else percentEncode c)
          (list_ascii_of_string s))).

(** [s.startsWith(p)]. *)
Fixpoint startsWith (s p : string) : bool :=
  match p with
  | EmptyString => true
  | String a p' =>
      match s with
      | EmptyString => false
      | String b s' => Ascii.eqb a b && startsWith s' p'
      end
  end.

(** [s.includes(sub)]: [sub] starts at some position of [s]. *)
Fixpoint includes (s sub : string) : bool :=
  startsWith s sub ||
  match s with
  | EmptyString => false
  | String _ s' => includes s' sub
  end.

End JS.

(** ** Data model *)

(** A field of a result record that the collectors fill with a string,
    with [null], or with [undefined] (index [0] of an empty array). *)
Inductive Field : Type :=
| Str (s : string)
| Null
| Undefined.

Record ResultRecord : Type := mkResult {
  title : string;
  link : Field;
  snippet : Field;
  source : string
}.

(** ** Result Normalizer (the end of [scrapeGoogle]) *)

(** [results.filter((result, index, self) =>
       index === self.findIndex((r) => r.title === result.title))] *)
Definition uniqueResults (results : list ResultRecord) : list ResultRecord :=
  JS.filter
    (fun result index self =>
       index =? JS.findIndex (fun r => String.eqb (title r) (title result)) self)
    results.

(** [uniqueResults.slice(0, pages * 10)] *)
Definition normalize (results : list ResultRecord) (pages : JS.number)
  : list ResultRecord :=
  JS.slice (uniqueResults results) (JS.Int 0) (JS.mul pages (JS.Int 10)).

(** ** Scrape configuration (the [config] object and the [Root] options) *)

Record ScrapeConfig : Type := mkConfig {
  baseSiteUrl : string;
  startUrl : string;
  concurrency : Z;
  maxRetries : Z;
  delay : Z;
  timeout : Z;
  headers : gmap string string;
  removeStyleAndScriptTags : bool
}.

Definition config (encodedQuery lang : string) : ScrapeConfig :=
  {| baseSiteUrl := "https://www.google.com";
     startUrl :=
       "https://www.google.com/search?q=" +:+ encodedQuery +:+ "&hl=" +:+ lang;
     concurrency := 2;
     maxRetries := 2;
     delay := 5000;
     timeout := 15000;
     headers :=
       <["User-Agent" :=
           "Mozilla/5.0 (Windows NT 10.0; Win64; x64) AppleWebKit/537.36 (KHTML, like Gecko) Chrome/120.0.0.0 Safari/537.36"]>
       (<["Accept-Language" := lang +:+ "-US," +:+ lang +:+ ";q=0.9"]>
       (<["Accept" :=
           "text/html,application/xhtml+xml,application/xml;q=0.9,image/webp,*/*;q=0.8"]>
       (<["Referer" := "https://www.google.com/"]>
       (<["Sec-Fetch-Dest" := "document"]>
       (<["Sec-Fetch-Mode" := "navigate"]>
       (<["Sec-Fetch-Site" := "same-origin"]> ∅))))));
     removeStyleAndScriptTags := true |}.

(** The [pagination] option handed to [new Root(...)]. *)
Record Pagination : Type := mkPagination {
  queryString : string;
  begin : JS.number;
  end_ : JS.number;
  offset : JS.number
}.

Record Root : Type := mkRoot {
  pagination : Pagination
}.

Definition root (pages : JS.number) : Root :=
  {| pagination :=
       {| queryString := "start";
          begin := JS.Int 0;
          end_ := JS.mul (JS.sub pages (JS.Int 1)) (JS.Int 10);
          offset := JS.Int 10 |} |}.

(** ** Result Collector *)

(** The object the engine hands to [getPageObject]: one optional field per
    named child operation, each an array of the collected texts. *)
Record PageObject : Type := mkPageObject {
  po_title : option (list string);
  po_link : option (list string);
  po_snippet : option (list string)
}.

(** [arr[0]] on an array of strings. *)
Definition first (arr : list string) : Field :=
  match arr with
  | [] => Undefined
  | x :: _ => Str x
  end.

(** [field ? field[0] : null]; an array, even an empty one, is truthy. *)
Definition firstOrNull (field : option (list string)) : Field :=
  match field with
  | Some arr => first arr
  | None => Null
  end.

(** [results.push(r)]. *)
Definition push (results : list ResultRecord) (r : ResultRecord)
  : list ResultRecord :=
  results ++ [r].

(** The [getPageObject] callback of the [searchResult] operation, as a
    transformer of the shared [results] buffer. *)
Definition getPageObject (pageObject : PageObject) (address : string)
  (results : list ResultRecord) : list ResultRecord :=
  match po_title pageObject with
  | Some (title0 :: _) =>
      if JS.truthy title0 then
        push results
          {| title := title0;
             link := firstOrNull (po_link pageObject);
             snippet := firstOrNull (po_snippet pageObject);
             source := address |}
      else results
  | Some [] => results
  | None => results
  end.

(** The record pushed by the [directTitle] collector. *)
Definition directRecord (t : string) : ResultRecord :=
  {| title := t;
     link := Null;
     snippet := Null;
     source := "search results page" |}.

(** One round of the [items.forEach] loop of [getAllItems]. *)
Definition directTitleStep (results : list ResultRecord) (t : string)
  : list ResultRecord :=
  if JS.truthy t && negb (JS.some (fun r => String.eqb (title r) t) results)
  then push results (directRecord t)
  else results.

(** The [getAllItems] callback of the [directTitle] collector. *)
Definition getAllItems (items : list string) (address : string)
  (results : list ResultRecord) : list ResultRecord :=
  fold_left directTitleStep items results.

(** ** The external engine, as seen from the program *)

Inductive Callback : Type :=
| SearchResult (pageObject : PageObject) (address : string)
| DirectTitle (items : list string) (address : string).

(** One [scraper.scrape(root)]: the callbacks it invokes, in order, and
    whether the returned promise is rejected (with the error's message). *)
Record EngineRun : Type := mkRun {
  callbacks : list Callback;
  rejected : option string
}.

Definition Engine : Type := ScrapeConfig -> Root -> EngineRun.

Definition runCallback (results : list ResultRecord) (c : Callback)
  : list ResultRecord :=
  match c with
  | SearchResult pageObject address => getPageObject pageObject address results
  | DirectTitle items address => getAllItems items address results
  end.

(** ** Effects and exceptions *)

Inductive Effect : Type :=
| Scrape (cfg : ScrapeConfig) (r : Root)
| SetHeader (name value : string)
| ConsoleError (label message : string).

(** A computation logs its effects and either returns or throws an error
    (identified by its [message]). *)
Definition Io (A : Type) : Type := list Effect * (string + A).

Definition ret {A} (a : A) : Io A := ([], inr a).

Definition throw {A} (message : string) : Io A := ([], inl message).

Definition emit (e : Effect) : Io unit := ([e], inr tt).

Definition bind {A B} (m : Io A) (k : A -> Io B) : Io B :=
  match m with
  | (log, inl message) => (log, inl message)
  | (log, inr a) => let '(log', r) := k a in (log ++ log', r)
  end.

Definition tryCatch {A} (m : Io A) (handler : string -> Io A) : Io A :=
  match m with
  | (log, inl message) => let '(log', r) := handler message in (log ++ log', r)
  | (log, inr a) => (log, inr a)
  end.

Global Instance Io_ret : MRet Io := @ret.
Global Instance Io_bind : MBind Io := fun A B k m => bind m k.

(** ** [scrapeGoogle] *)

Definition scrapeGoogle (engine : Engine) (query : string)
  (pages : JS.number) (lang : string) : Io (list ResultRecord) :=
  let encodedQuery := JS.encodeURIComponent query in
  let results := [] in
  let cfg := config encodedQuery lang in
  let rt := root pages in
  emit (Scrape cfg rt) ;;
  let run := engine cfg rt in
  let results := fold_left runCallback (callbacks run) results in
  match rejected run with
  | Some message => throw message
  | None => ret (normalize results pages)
  end.

(** ** The [/search] endpoint *)

(** A value of [req.query]: absent, a string, or a structured value (an
    array or an object, for a repeated or bracketed parameter). *)
Inductive QueryValue : Type :=
| Absent
| Text (s : string)
| Structured.

(** [pages] and [lang] are only ever converted to a string (by [parseInt]
    and by the template literals); the model takes that string. *)
Record Request : Type := mkRequest {
  q : QueryValue;
  pages : option string;
  lang : option string
}.

Inductive Body : Type :=
| ValidationBody (error example : string)
| SearchBody (success : bool) (query : string) (pages_ : JS.number)
    (totalResults : JS.number) (timestamp : string)
    (results : list ResultRecord)
| FailureBody (success : bool) (error message suggestion : string).

Record Response : Type := mkResponse {
  status : Z;
  body : Body
}.

(** What one request sees of the world: the engine and the clock. *)
Record World : Type := mkWorld {
  scrape : Engine;
  now : string
}.

(** The guard [!query || query.trim() === ""]: [None] when it holds, the
    query itself when it does not.  On a structured value [trim] is not a
    function, a [TypeError]. *)
Definition validateQuery (query : QueryValue) : Io (option string) :=
  match query with
  | Absent => ret None
  | Text s =>
      if negb (JS.truthy s) || String.eqb (JS.trim s) ""
      then ret None
      else ret (Some s)
  | Structured => throw "query.trim is not a function"
  end.

(** [res.status(400).json({error: ..., example: ...})] *)
Definition badRequest : Response :=
  {| status := 400;
     body := ValidationBody "Query parameter (q) is required"
               "/search?q=nodejs+tutorial&pages=2" |}.

(** [res.status(500).json({success: false, ...})] *)
Definition scrapeFailure (message : string) : Response :=
  {| status := 500;
     body := FailureBody false "Failed to scrape Google" message
               "Try again later or reduce the number of pages" |}.

Definition searchHandler (w : World) (req : Request) : Io Response :=
  tryCatch
    (let pages := default "1" (pages req) in
     let lang := default "en" (lang req) in
     validated ← validateQuery (q req);
     match validated with
     | None => ret badRequest
     | Some query =>
         emit (SetHeader "Access-Control-Allow-Origin" "*") ;;
         emit (SetHeader "Content-Type" "application/json") ;;
         results ← scrapeGoogle (scrape w) query (JS.parseInt pages) lang;
         ret {| status := 200;
                body := SearchBody true query (JS.parseInt pages)
                          (JS.length results) (now w) results |}
     end)
    (fun message =>
       emit (ConsoleError "Scraping error:" message) ;;
       ret (scrapeFailure message)).

(** ** The [condition] of the [link] collector *)

(** [(element) => { const href = element.attr("href");
       return href && !href.includes("google.com") && !href.startsWith("/"); }]
    as the truthiness of the returned value; [href] is [None] when the
    element has no such attribute. *)
Definition condition (href : option string) : bool :=
  match href with
  | None => false
  | Some h =>
      JS.truthy h && negb (JS.includes h "google.com")
      && negb (JS.startsWith h "/")
  end.

(** ** The other endpoints and the application *)

Inductive AppBody : Type :=
| UsageBody (message : string) (endpoints : list (string * string))
    (note : string)
| HealthBody (status_ timestamp service : string)
| SearchResponse (b : Body)
| NotFoundBody (error : string) (availableEndpoints : list string)
| ServerErrorBody (error : string) (message : option string).

Record AppResponse : Type := mkAppResponse {
  app_status : Z;
  app_body : AppBody
}.

(** [app.get("/", ...)]; [res.json] without [res.status] answers 200. *)
Definition rootHandler : Io AppResponse :=
  ret {| app_status := 200;
         app_body :=
           UsageBody "Google Scraper API"
             [ ("search", "GET /search?q=your-query&pages=1");
               ("example", "GET /search?q=nodejs+tutorial&pages=1") ]
             "Use responsibly and comply with Google Terms of Service" |}.

(** [app.get("/health", ...)]. *)
Definition healthHandler (w : World) : Io AppResponse :=
  ret {| app_status := 200;
         app_body := HealthBody "healthy" (now w) "Google Scraper API" |}.

(** The 404 handler, [app.use((req, res) => ...)]. *)
Definition notFoundHandler : Io AppResponse :=
  ret {| app_status := 404;
         app_body :=
           NotFoundBody "Endpoint not found"
             [ "GET /"; "GET /search?q=your-query";
               "GET /search?q=your-query&pages=2"; "GET /health" ] |}.

(** The error-handling middleware, [app.use((err, req, res, next) => ...)];
    [nodeEnv] is [process.env.NODE_ENV] and [err] the error's message. *)
Definition errorHandler (nodeEnv : option string) (err : string)
  : Io AppResponse :=
  emit (ConsoleError "Server error:" err) ;;
  ret {| app_status := 500;
         app_body :=
           ServerErrorBody "Internal server error"
             (match nodeEnv with
              | Some env => if String.eqb env "development" then Some err
                            else None
              | None => None
              end) |}.

(** The handler that the framework's router selects for a request. *)
Inductive Endpoint : Type :=
| RootEndpoint
| SearchEndpoint
| HealthEndpoint
| Unmatched.

(** The routes of [app], for a request that the middleware registered
    before them has passed on: the selected handler runs, and an error that
    escapes it reaches the error-handling middleware. *)
Definition application (w : World) (nodeEnv : option string) (e : Endpoint)
  (req : Request) : Io AppResponse :=
  tryCatch
    (match e with
     | RootEndpoint => rootHandler
     | SearchEndpoint =>
         resp ← searchHandler w req;
         ret {| app_status := status resp;
                app_body := SearchResponse (body resp) |}
     | HealthEndpoint => healthHandler w
     | Unmatched => notFoundHandler
     end)
    (errorHandler nodeEnv).

(** What the middleware registered before the routes ([cors()],
    [express.json()], [express.urlencoded(...)]) does with a request, as far
    as this file can observe it: it passes the request on to the routes, or
    it raises an error (a body that does not parse, say), which the
    framework hands to the error-handling middleware without running any
    route.  A request that a middleware answers by itself involves no code
    of this file. *)
Inductive Preroute : Type :=
| PassedOn
| Raised (err : string).

(** The whole of [app]: middleware, then routes, with the error-handling
    middleware behind both. *)
Definition server (w : World) (nodeEnv : option string) (pre : Preroute)
  (e : Endpoint) (req : Request) : Io AppResponse :=
  match pre with
  | PassedOn => application w nodeEnv e req
  | Raised err => errorHandler nodeEnv err
  end.

(** ** Reference definitions used to state the claims *)

(** The [results] array of a response body (empty for an error body). *)
Definition responseResults (r : Response) : list ResultRecord :=
  match body r with
  | SearchBody _ _ _ _ _ results => results
  | _ => []
  end.

(** The normalizer's first stage in the words of the specification: walk the
    buffer once, keep a record when its title has not been seen yet. *)
Fixpoint keepFirst (seen : gset string) (l : list ResultRecord)
  : list ResultRecord :=
  match l with
  | [] => []
  | r :: rest =>
      if decide (title r ∈ seen) then keepFirst seen rest
      else r :: keepFirst ({[title r]} ∪ seen) rest
  end.

Definition firstOccurrences (l : list ResultRecord) : list ResultRecord :=
  keepFirst ∅ l.

(** The test [r.title === result.title] of the dedup stage. *)
Definition sameTitle (result r : ResultRecord) : bool :=
  String.eqb (title r) (title result).

Definition titles (l : list ResultRecord) : list string := map title l.

(** A [pages] value that is [NaN] or an integer that is not negative. *)
Definition notNegative (pages : JS.number) : Prop :=
  match pages with
  | JS.NaN => True
  | JS.Int z => 0 <= z
  end.

(** Modelled from the spec: the engine's reading of a pagination descriptor,
    which is not code of this repository.  The [start] values it requests
    are [begin], [begin + offset], ... as long as they do not pass [end]
    (the loop [for (i = begin; i <= end; i += offset)]); [fuel] bounds the
    number of rounds. *)
Fixpoint offsetsFrom (fuel : nat) (i last step : Z) : list Z :=
  match fuel with
  | O => []
  | S fuel' =>
      if i <=? last then i :: offsetsFrom fuel' (i + step) last step else []
  end.

(** Modelled from the spec: the start offsets of a descriptor; none when a
    bound is [NaN] or the step is not positive. *)
Definition paginationOffsets (p : Pagination) : list Z :=
  match begin p, end_ p, offset p with
  | JS.Int b, JS.Int e, JS.Int step =>
      if 0 <? step then offsetsFrom (Z.to_nat (e - b + 1)) b e step else []
  | _, _, _ => []
  end.

(** Reads one [%XX] escape back into its byte; used to show that
    [encodeURIComponent] loses nothing. *)
Definition hexValue (c : ascii) : N :=
  let n := N_of_ascii c in
  if (n <? 58)%N then (n - 48)%N else (n - 55)%N.

Definition percentDecode (l : list ascii) : ascii :=
  match l with
  | [_; hi; lo] => ascii_of_N (hexValue hi * 16 + hexValue lo)
  | _ => "000"%char
  end.

(** A byte that occurs in the encoding of no white-space character; every
    ASCII letter, digit and punctuation mark is one. *)
Definition plainByte (c : ascii) : bool :=
  forallb (fun p => negb (existsb (Ascii.eqb c) p)) JS.whiteSpace.


(** The titles one callback offers to the buffer: the first title of a
    page object, or the heading texts of a direct collection. *)
Definition callbackTitles (c : Callback) : list string :=
  match c with
  | SearchResult pageObject _ =>
      match po_title pageObject with
      | Some (t :: _) => [t]
      | _ => []
      end
  | DirectTitle items _ => items
  end.

(** The buffer at the end of a scrape that invoked the callbacks [cs]. *)
Definition collect (cs : list Callback) : list ResultRecord :=
  fold_left runCallback cs [].

Definition isScrape (e : Effect) : bool :=
  match e with
  | Scrape _ _ => true
  | _ => false
  end.

(** How many times a log shows the engine being invoked. *)
Definition engineCalls (log : list Effect) : nat :=
  List.length (List.filter isScrape log).

(** ** Sample data *)

Definition letters : list string :=
  [ "A"; "B"; "C"; "D"; "E"; "F"; "G"; "H"; "I"; "J"; "K"; "L"; "M";
    "N"; "O"; "P"; "Q"; "R"; "S"; "T"; "U"; "V"; "W"; "X"; "Y" ].

(** 25 collected records with pairwise different titles. *)
Definition sampleBuffer : list ResultRecord := map directRecord letters.

(** An engine that finds the 25 headings of [letters] on the results page. *)
Definition sampleEngine : Engine :=
  fun _ _ =>
    {| callbacks := [DirectTitle letters "https://www.google.com/search"];
       rejected := None |}.

(** An engine whose scrape is rejected. *)
Definition failingEngine : Engine :=
  fun _ _ => {| callbacks := []; rejected := Some "Network Error" |}.

Definition sampleWorld (e : Engine) : World :=
  {| scrape := e; now := "2024-01-01T00:00:00.000Z" |}.

Definition sampleRequest (query : string) (pages : option string) : Request :=
  {| q := Text query; pages := pages; lang := None |}.

(** * Properties *)

(** ** JavaScript built-ins *)

Example builtins_examples :
  JS.trim "  a b	 " = "a b" /\ JS.trim " 	  " = "" /\
  JS.parseInt " -12px" = JS.Int (-12) /\ JS.parseInt "0x1F" = JS.Int 31 /\
  JS.parseInt "abc" = JS.NaN /\ JS.parseInt "" = JS.NaN /\
  JS.parseInt "-" = JS.NaN /\ JS.parseInt "2,3" = JS.Int 2 /\
  JS.encodeURIComponent "a b&c/" = "a%20b%26c%2F".
Proof. repeat split; vm_compute; reflexivity. Qed.

Lemma slice_from_zero {A} (arr : list A) (e : JS.number) :
  JS.slice arr (JS.Int 0) e =
  take (Z.to_nat (JS.relativeIndex (Z.of_nat (List.length arr))
                    (JS.toIntegerOrInfinity e))) arr.
Proof.
  unfold JS.slice. cbn [JS.toIntegerOrInfinity].
  replace (JS.relativeIndex (Z.of_nat (List.length arr)) 0) with 0
    by (unfold JS.relativeIndex; simpl; lia).
  rewrite Z.sub_0_r. reflexivity.
Qed.

Lemma slice_zero_nonneg {A} (arr : list A) (n : Z) :
  0 <= n -> JS.slice arr (JS.Int 0) (JS.Int n) = take (Z.to_nat n) arr.
Proof.
  intros Hn. rewrite slice_from_zero. cbn [JS.toIntegerOrInfinity].
  unfold JS.relativeIndex.
  destruct (Z.ltb_spec n 0) as [?|_]; [lia|].
  destruct (Z.le_ge_cases n (Z.of_nat (List.length arr))).
  - rewrite Z.min_l by lia. reflexivity.
  - rewrite Z.min_r by lia. rewrite Nat2Z.id.
    rewrite !take_ge by lia. reflexivity.
Qed.

Lemma slice_zero_NaN {A} (arr : list A) :
  JS.slice arr (JS.Int 0) JS.NaN = [].
Proof.
  rewrite slice_from_zero. cbn [JS.toIntegerOrInfinity].
  unfold JS.relativeIndex.
  replace (0 <? 0) with false by reflexivity.
  rewrite Z.min_l by lia. reflexivity.
Qed.

Lemma slice_zero_prefix {A} (arr : list A) (e : JS.number) :
  JS.slice arr (JS.Int 0) e `prefix_of` arr.
Proof. rewrite slice_from_zero. apply prefix_take. Qed.

(** ** The dedup stage agrees with [firstOccurrences] *)

Section FindIndex.
Context {A : Type} (p : A -> bool).

Lemma findIndexFrom_skip (pre l : list A) (i : Z) :
  Forall (fun x => p x = false) pre ->
  JS.findIndexFrom p (pre ++ l) i =
  JS.findIndexFrom p l (i + Z.of_nat (List.length pre)).
Proof.
  intros H. revert i. induction H as [|x pre Hx _ IH]; intros i; simpl.
  - f_equal. lia.
  - rewrite Hx, IH. f_equal. lia.
Qed.

Lemma findIndexFrom_hit (pre l : list A) (i : Z) :
  Exists (fun x => p x = true) pre ->
  i <= JS.findIndexFrom p (pre ++ l) i < i + Z.of_nat (List.length pre).
Proof.
  intros H. revert i. induction pre as [|x pre IH]; intros i.
  - inversion H.
  - simpl. destruct (p x) eqn:Hx; [lia|].
    inversion H as [? ? Hp|? ? Hp]; subst; [congruence|].
    specialize (IH Hp (i + 1)). lia.
Qed.
End FindIndex.

Lemma sameTitle_true (result r : ResultRecord) :
  sameTitle result r = true <-> title r = title result.
Proof. apply String.eqb_eq. Qed.

Lemma sameTitle_false (result r : ResultRecord) :
  sameTitle result r = false <-> title r <> title result.
Proof. apply String.eqb_neq. Qed.

Lemma first_index_test (pre post : list ResultRecord) (x : ResultRecord) :
  (Z.of_nat (List.length pre) =? JS.findIndex (sameTitle x) (pre ++ x :: post))
  = bool_decide (title x ∉ titles pre).
Proof.
  unfold JS.findIndex. case_bool_decide as Hin.
  - rewrite findIndexFrom_skip.
    + simpl. replace (sameTitle x x) with true
        by (symmetry; apply sameTitle_true; reflexivity).
      apply Z.eqb_refl.
    + apply Forall_forall. intros r Hr. apply sameTitle_false.
      intros Heq. apply Hin. unfold titles. rewrite <- Heq.
      apply list_elem_of_fmap_2. exact Hr.
  - apply Z.eqb_neq.
    unfold titles in Hin. apply list_elem_of_fmap in Hin as (r & Heq & Hr).
    assert (Exists (fun r => sameTitle x r = true) pre) as Hex.
    { apply Exists_exists. exists r. split; [exact Hr|].
      apply sameTitle_true. congruence. }
    pose proof (findIndexFrom_hit (sameTitle x) pre (x :: post) 0 Hex).
    lia.
Qed.

Lemma keepFirst_filterFrom (l pre : list ResultRecord) :
  JS.filterFrom
    (fun result index => index =? JS.findIndex (sameTitle result) (pre ++ l))
    l (Z.of_nat (List.length pre))
  = keepFirst (list_to_set (titles pre)) l.
Proof.
  revert pre. induction l as [|x l IH]; intros pre; [reflexivity|].
  cbn [JS.filterFrom keepFirst].
  rewrite first_index_test.
  specialize (IH (pre ++ [x])).
  rewrite <- app_assoc in IH. cbn [app] in IH.
  rewrite length_app in IH. cbn [List.length] in IH.
  replace (Z.of_nat (List.length pre) + 1)
    with (Z.of_nat (List.length pre + 1)) by lia.
  rewrite IH.
  assert (list_to_set (titles (pre ++ [x])) =@{gset string}
          {[title x]} ∪ list_to_set (titles pre)) as ->.
  { unfold titles. rewrite fmap_app, list_to_set_app_L. cbn [fmap list_fmap].
    change (list_to_set [title x]) with ({[title x]} ∪ (∅ : gset string)).
    rewrite union_empty_r_L. apply union_comm_L. }
  case_bool_decide as Hin; destruct (decide _) as [Hin'|Hin'].
  - exfalso. apply Hin. apply elem_of_list_to_set in Hin'. exact Hin'.
  - reflexivity.
  - f_equal. apply subseteq_union_1_L, singleton_subseteq_l. exact Hin'.
  - exfalso. apply Hin'. apply elem_of_list_to_set. exact Hin.
Qed.

Lemma uniqueResults_firstOccurrences (results : list ResultRecord) :
  uniqueResults results = firstOccurrences results.
Proof.
  unfold uniqueResults, JS.filter, firstOccurrences.
  exact (keepFirst_filterFrom results []).
Qed.

(** ** Facts about [keepFirst] *)

Lemma keepFirst_sublist (seen : gset string) (l : list ResultRecord) :
  keepFirst seen l `sublist_of` l.
Proof.
  revert seen. induction l as [|r l IH]; intros seen; simpl.
  - constructor.
  - destruct (decide _).
    + apply sublist_cons, IH.
    + apply sublist_skip, IH.
Qed.

Lemma keepFirst_titles_fresh (seen : gset string) (l : list ResultRecord)
  (t : string) :
  t ∈ titles (keepFirst seen l) -> (t ∉ seen) /\ (t ∈ titles l).
Proof.
  revert seen. induction l as [|r l IH]; intros seen; simpl.
  - intros H. inversion H.
  - destruct (decide _) as [Hin|Hin]; simpl.
    + intros H. destruct (IH _ H). split; [assumption|]. now right.
    + intros H. apply elem_of_cons in H as [->|H].
      * split; [assumption|]. left.
      * destruct (IH _ H) as [Hs Ht]. split; [|now right].
        intros Hc. apply Hs. apply elem_of_union. now right.
Qed.

Lemma keepFirst_NoDup (seen : gset string) (l : list ResultRecord) :
  NoDup (titles (keepFirst seen l)).
Proof.
  revert seen. induction l as [|r l IH]; intros seen; simpl.
  - constructor.
  - destruct (decide _); simpl; [apply IH|].
    constructor; [|apply IH].
    intros H. apply keepFirst_titles_fresh in H as [H _].
    apply H. apply elem_of_union. left. now apply elem_of_singleton.
Qed.

Lemma keepFirst_complete (seen : gset string) (l : list ResultRecord)
  (t : string) :
  t ∈ titles l -> t ∉ seen -> t ∈ titles (keepFirst seen l).
Proof.
  revert seen. induction l as [|r l IH]; intros seen; simpl.
  - intros H. inversion H.
  - intros H Hs. apply elem_of_cons in H.
    destruct (decide (title r ∈ seen)) as [Hr|Hr]; simpl.
    + destruct H as [->|H]; [contradiction|]. now apply IH.
    + destruct (decide (t = title r)) as [->|Hne]; [left|].
      destruct H as [->|H]; [contradiction|].
      right. apply IH; [assumption|].
      intros Hc. apply elem_of_union in Hc as [Hc|Hc]; [|contradiction].
      apply elem_of_singleton in Hc. contradiction.
Qed.

Lemma keepFirst_id (seen : gset string) (l : list ResultRecord) :
  NoDup (titles l) -> (forall t, t ∈ titles l -> t ∉ seen) ->
  keepFirst seen l = l.
Proof.
  revert seen. induction l as [|r l IH]; intros seen Hnd Hs; simpl.
  - reflexivity.
  - simpl in Hnd. apply NoDup_cons in Hnd as [Hr Hnd].
    destruct (decide _) as [Hin|_].
    + exfalso. apply (Hs (title r)); [left|assumption].
    + f_equal. apply IH; [assumption|].
      intros t Ht Hc. apply elem_of_union in Hc as [Hc|Hc].
      * apply elem_of_singleton in Hc. subst t. contradiction.
      * apply (Hs t); [now right|assumption].
Qed.

Lemma keepFirst_snoc (seen : gset string) (l : list ResultRecord)
  (r : ResultRecord) :
  keepFirst seen (l ++ [r]) =
  keepFirst seen l ++
  (if decide (title r ∈ seen \/ title r ∈ titles l) then [] else [r]).
Proof.
  revert seen. induction l as [|x l IH]; intros seen; simpl.
  - destruct (decide (title r ∈ seen)) as [Hin|Hin];
      destruct (decide _) as [Hor|Hor]; try reflexivity.
    + exfalso. apply Hor. now left.
    + exfalso. destruct Hor as [?|Hor]; [contradiction|]. inversion Hor.
  - destruct (decide (title x ∈ seen)) as [Hx|Hx]; rewrite IH; simpl.
    + f_equal. destruct (decide _) as [Ha|Ha]; destruct (decide _) as [Hb|Hb];
        try reflexivity; exfalso.
      * apply Hb. destruct Ha as [Ha|Ha]; [now left|right; now right].
      * apply Ha. destruct Hb as [Hb|Hb]; [now left|].
        apply elem_of_cons in Hb as [->|Hb]; [now left|now right].
    + f_equal. f_equal.
      destruct (decide _) as [Ha|Ha]; destruct (decide _) as [Hb|Hb];
        try reflexivity; exfalso.
      * apply Hb. destruct Ha as [Ha|Ha]; [|right; now right].
        apply elem_of_union in Ha as [Ha|Ha]; [|now left].
        apply elem_of_singleton in Ha. right. rewrite Ha. left.
      * apply Ha. destruct Hb as [Hb|Hb].
        -- left. apply elem_of_union. now right.
        -- apply elem_of_cons in Hb as [->|Hb]; [|now right].
           left. apply elem_of_union. left. now apply elem_of_singleton.
Qed.

(** ** The normalizer *)

Lemma uniqueResults_NoDup (results : list ResultRecord) :
  NoDup (titles (uniqueResults results)).
Proof. rewrite uniqueResults_firstOccurrences. apply keepFirst_NoDup. Qed.

Lemma uniqueResults_fixed (results : list ResultRecord) :
  NoDup (titles results) -> uniqueResults results = results.
Proof.
  intros H. rewrite uniqueResults_firstOccurrences.
  apply keepFirst_id; [assumption|]. intros t _. apply not_elem_of_empty.
Qed.

Lemma normalize_prefix (results : list ResultRecord) (pages : JS.number) :
  normalize results pages `prefix_of` uniqueResults results.
Proof. apply slice_zero_prefix. Qed.

Lemma prefix_sublist {A} (l k : list A) :
  l `prefix_of` k -> l `sublist_of` k.
Proof. intros [rest ->]. apply sublist_inserts_r. reflexivity. Qed.

Lemma normalize_NoDup (results : list ResultRecord) (pages : JS.number) :
  NoDup (titles (normalize results pages)).
Proof.
  apply (sublist_NoDup _ (titles (uniqueResults results))).
  - apply uniqueResults_NoDup.
  - apply fmap_sublist, prefix_sublist, normalize_prefix.
Qed.

Lemma normalize_nonneg (results : list ResultRecord) (p : Z) :
  0 <= p ->
  normalize results (JS.Int p) = take (Z.to_nat (p * 10)) (uniqueResults results).
Proof. intros Hp. unfold normalize. simpl. apply slice_zero_nonneg. lia. Qed.

Lemma normalize_NaN (results : list ResultRecord) :
  normalize results JS.NaN = [].
Proof. unfold normalize. simpl. apply slice_zero_NaN. Qed.

Lemma normalize_length_bound (results : list ResultRecord) (p : Z) :
  0 <= p -> Z.of_nat (List.length (normalize results (JS.Int p))) <= p * 10.
Proof. intros Hp. rewrite normalize_nonneg, length_take by assumption. lia. Qed.

(** C1: the dedup stage of the normalizer keeps exactly the first
    occurrence of each distinct title (it is [firstOccurrences]; a record
    appended to the buffer is kept iff no earlier record has its title),
    the normalized output is a subsequence of the input buffer, and a
    buffer with titles "A", "B", "A" is normalized to its first two
    records. *)
Theorem normalizer_keeps_first_occurrences :
  (forall results : list ResultRecord,
      uniqueResults results = firstOccurrences results /\
      (forall r,
          uniqueResults (results ++ [r]) =
          if decide (title r ∈ titles results) then uniqueResults results
          else uniqueResults results ++ [r]) /\
      (forall t, t ∈ titles results <-> t ∈ titles (uniqueResults results)) /\
      uniqueResults results `sublist_of` results /\
      (forall pages, normalize results pages `prefix_of` uniqueResults results) /\
      (forall pages, normalize results pages `sublist_of` results)) /\
  (forall (a b a' : ResultRecord) (p : Z),
      title a = "A" -> title b = "B" -> title a' = "A" -> 1 <= p ->
      normalize [a; b; a'] (JS.Int p) = [a; b]).
Proof.
  split.
  - intros results. split; [apply uniqueResults_firstOccurrences|].
    split; [|split; [|split; [|split]]].
    + intros r. rewrite !uniqueResults_firstOccurrences.
      unfold firstOccurrences. rewrite keepFirst_snoc.
      destruct (decide (_ \/ _)) as [Ha|Ha]; destruct (decide _) as [Hb|Hb].
      * apply app_nil_r.
      * exfalso. destruct Ha as [Ha|Ha]; [|contradiction].
        now apply not_elem_of_empty in Ha.
      * exfalso. apply Ha. now right.
      * reflexivity.
    + intros t. rewrite uniqueResults_firstOccurrences. split.
      * intros H. apply keepFirst_complete; [assumption|].
        apply not_elem_of_empty.
      * intros H. now apply keepFirst_titles_fresh in H.
    + rewrite uniqueResults_firstOccurrences. apply keepFirst_sublist.
    + intros pages. apply normalize_prefix.
    + intros pages. etransitivity.
      * apply prefix_sublist, normalize_prefix.
      * rewrite uniqueResults_firstOccurrences. apply keepFirst_sublist.
  - intros a b a' p Ha Hb Ha' Hp. rewrite normalize_nonneg by lia.
    rewrite uniqueResults_firstOccurrences. unfold firstOccurrences.
    simpl. rewrite Ha, Hb, Ha'.
    destruct (Z.to_nat (p * 10)) as [|[|n]] eqn:Hn; [lia|lia|].
    vm_compute. destruct n; reflexivity.
Qed.

Lemma normalizer_keeps_first_occurrences_witness :
  normalize [directRecord "A"; directRecord "B"; directRecord "A"] (JS.Int 1)
  = [directRecord "A"; directRecord "B"].
Proof.
  apply (proj2 normalizer_keeps_first_occurrences); [reflexivity..|lia].
Defined.

(** C2, as stated, fails for a negative [pages]: [slice(0, -10)] drops the
    last ten records, so 25 collected records with [pages = -1] leave 15
    records, which exceeds [pages * 10 = -10]. *)
Lemma normalize_negative_pages_exceeds :
  let out := normalize sampleBuffer (JS.Int (-1)) in
  List.length out = 15%nat /\
  ~ (Z.of_nat (List.length out) <= (-1) * 10) /\
  JS.gtb (JS.length out) (JS.mul (JS.Int (-1)) (JS.Int 10)) = true.
Proof. vm_compute. split; [reflexivity|]. split; [intros H; apply H|]; reflexivity. Qed.

(** C2 (amended): for every buffer and every [pages] value the normalized
    output has no two records with the same title; when [pages] is [NaN] or
    an integer that is not negative its length does not exceed
    [pages * 10]; 25 records with pairwise different titles and
    [pages = 2] give exactly 20 records. *)
Theorem normalized_unique_and_bounded :
  (forall (results : list ResultRecord) (pages : JS.number),
      NoDup (titles (normalize results pages))) /\
  (forall (results : list ResultRecord) (pages : JS.number),
      notNegative pages ->
      JS.gtb (JS.length (normalize results pages)) (JS.mul pages (JS.Int 10))
      = false) /\
  (forall (results : list ResultRecord) (p : Z),
      0 <= p ->
      Z.of_nat (List.length (normalize results (JS.Int p))) <= p * 10) /\
  (forall results : list ResultRecord,
      List.length results = 25%nat -> NoDup (titles results) ->
      List.length (normalize results (JS.Int 2)) = 20%nat).
Proof.
  split; [exact normalize_NoDup|]. split; [|split].
  - intros results [|p] Hp; [reflexivity|]. simpl in Hp.
    pose proof (normalize_length_bound results p Hp).
    unfold JS.gtb, JS.length, JS.mul. apply Z.ltb_ge. assumption.
  - exact normalize_length_bound.
  - intros results Hlen Hnd. rewrite normalize_nonneg by lia.
    rewrite uniqueResults_fixed by assumption.
    rewrite length_take, Hlen. reflexivity.
Qed.

Lemma normalized_unique_and_bounded_witness :
  JS.gtb (JS.length (normalize sampleBuffer (JS.Int 2)))
    (JS.mul (JS.Int 2) (JS.Int 10)) = false /\
  Z.of_nat (List.length (normalize sampleBuffer (JS.Int 2))) <= 2 * 10 /\
  List.length (normalize sampleBuffer (JS.Int 2)) = 20%nat.
Proof.
  destruct normalized_unique_and_bounded as (_ & Hgt & Hle & Hex).
  split; [apply Hgt; simpl; lia|]. split; [apply Hle; lia|].
  apply Hex; [reflexivity|].
  apply (bool_decide_unpack _). vm_compute. exact I.
Defined.

(** C5, as stated, fails for a negative [pages]: each application of
    [slice(0, -10)] drops ten more records (25, then 15, then 5). *)
Lemma normalize_negative_pages_not_idempotent :
  let once := normalize sampleBuffer (JS.Int (-1)) in
  let twice := normalize once (JS.Int (-1)) in
  List.length once = 15%nat /\ List.length twice = 5%nat /\ twice <> once.
Proof.
  split; [reflexivity|]. split; [reflexivity|].
  intros H. apply (f_equal (@List.length _)) in H. vm_compute in H. discriminate.
Qed.

(** C5 (amended): the dedup stage removes nothing from a normalized output,
    for every [pages] value; and when [pages] is [NaN] or an integer that is
    not negative, normalizing a normalized output returns it unchanged. *)
Theorem normalize_idempotent :
  (forall (results : list ResultRecord) (pages : JS.number),
      uniqueResults (normalize results pages) = normalize results pages) /\
  (forall (results : list ResultRecord) (pages : JS.number),
      notNegative pages ->
      normalize (normalize results pages) pages = normalize results pages).
Proof.
  assert (forall results pages,
             uniqueResults (normalize results pages) = normalize results pages)
    as Hdedup.
  { intros results pages. apply uniqueResults_fixed, normalize_NoDup. }
  split; [exact Hdedup|].
  intros results [|p] Hp.
  - rewrite !normalize_NaN. reflexivity.
  - simpl in Hp. rewrite (normalize_nonneg (normalize _ _)) by assumption.
    rewrite Hdedup, normalize_nonneg by assumption.
    rewrite take_take. f_equal. lia.
Qed.

Lemma normalize_idempotent_witness :
  normalize (normalize sampleBuffer (JS.Int 2)) (JS.Int 2)
  = normalize sampleBuffer (JS.Int 2) /\
  normalize (normalize sampleBuffer JS.NaN) JS.NaN
  = normalize sampleBuffer JS.NaN.
Proof.
  split; apply (proj2 normalize_idempotent); simpl; [lia|exact I].
Defined.

(** ** The [/search] endpoint: validation *)

Lemma trim_nonempty (s : string) : JS.trim s <> "" -> JS.truthy s = true.
Proof.
  intros H. destruct s as [|c s]; [|reflexivity].
  exfalso. apply H. reflexivity.
Qed.

Lemma validateQuery_missing (s : string) :
  JS.trim s = "" -> validateQuery (Text s) = ([], inr None).
Proof.
  intros H. unfold validateQuery. rewrite H.
  rewrite orb_true_r. reflexivity.
Qed.

Lemma validateQuery_valid (s : string) :
  JS.trim s <> "" -> validateQuery (Text s) = ([], inr (Some s)).
Proof.
  intros H. unfold validateQuery.
  rewrite (trim_nonempty s H).
  apply String.eqb_neq in H. rewrite H. reflexivity.
Qed.

(** C3: a [/search] request whose [q] is absent or whose trimmed [q] is the
    empty string is answered with status 400 and an empty effect log: the
    engine is not invoked ([Scrape] is not logged) and nothing else happens;
    the validation step logs no effect on any input. *)
Theorem search_rejects_missing_query :
  (forall (w : World) (req : Request),
      q req = Absent \/ (exists s, q req = Text s /\ JS.trim s = "") ->
      searchHandler w req = ([], inr badRequest) /\
      status badRequest = 400 /\
      (forall cfg r, Scrape cfg r ∉ fst (searchHandler w req))) /\
  (forall query : QueryValue, fst (validateQuery query) = []).
Proof.
  split.
  - intros w req H.
    assert (searchHandler w req = ([], inr badRequest)) as Heq.
    { unfold searchHandler.
      destruct H as [H|(s & H & Hs)]; rewrite H.
      - reflexivity.
      - rewrite (validateQuery_missing s Hs). reflexivity. }
    split; [exact Heq|]. split; [reflexivity|].
    intros cfg r. rewrite Heq. apply not_elem_of_nil.
  - intros [|s|]; try reflexivity.
    unfold validateQuery. destruct (_ || _); reflexivity.
Qed.

Lemma search_rejects_missing_query_witness :
  searchHandler (sampleWorld sampleEngine) (sampleRequest "   " (Some "2"))
  = ([], inr badRequest) /\
  searchHandler (sampleWorld sampleEngine)
    {| q := Absent; pages := None; lang := None |}
  = ([], inr badRequest).
Proof.
  split.
  - apply (proj1 search_rejects_missing_query).
    right. exists "   ". split; reflexivity.
  - apply (proj1 search_rejects_missing_query). left. reflexivity.
Defined.

(** ** Pagination descriptor *)





(** ** Collector callbacks *)

(** What [getPageObject] does on every input: when the page object has a
    [title] field whose first element is a non-empty string, it appends
    exactly one record to the buffer: that title, [link[0]] (or [null] when
    the field is absent), [snippet[0]] (or [null]), and the page address as
    [source]; in every other case the buffer is unchanged.  Index [0] of an
    array that is present but empty is [undefined]. *)
Theorem getPageObject_appends_one (pageObject : PageObject) (a : string)
  (results : list ResultRecord) :
  (forall (arr : list string) (t : string),
      po_title pageObject = Some arr -> arr !! 0%nat = Some t -> t <> "" ->
      getPageObject pageObject a results =
      results ++ [ {| title := t;
                      link := firstOrNull (po_link pageObject);
                      snippet := firstOrNull (po_snippet pageObject);
                      source := a |} ]) /\
  (~ (exists (arr : list string) (t : string),
         po_title pageObject = Some arr /\ arr !! 0%nat = Some t /\ t <> "") ->
   getPageObject pageObject a results = results) /\
  (forall field : option (list string),
      firstOrNull field =
      match field with
      | None => Null
      | Some arr =>
          match arr !! 0%nat with
          | Some x => Str x
          | None => Undefined
          end
      end).
Proof.
  split; [|split].
  - intros arr t Harr Ht Hne. unfold getPageObject. rewrite Harr.
    destruct arr as [|t0 rest]; [discriminate|].
    simpl in Ht. injection Ht as ->.
    unfold JS.truthy. apply String.eqb_neq in Hne. rewrite Hne. reflexivity.
  - intros Hno. unfold getPageObject.
    destruct (po_title pageObject) as [[|t0 rest]|] eqn:Harr; try reflexivity.
    unfold JS.truthy. destruct (String.eqb_spec t0 "") as [_|Hne];
      [reflexivity|].
    exfalso. apply Hno. exists (t0 :: rest), t0. auto.
  - intros [[|x rest]|]; reflexivity.
Qed.

Lemma getPageObject_appends_one_witness :
  getPageObject
    {| po_title := Some ["Node.js"; "Docs"];
       po_link := Some ["https://nodejs.org/"];
       po_snippet := None |}
    "https://nodejs.org/en" [directRecord "A"]
  = [ directRecord "A";
      {| title := "Node.js"; link := Str "https://nodejs.org/";
         snippet := Null; source := "https://nodejs.org/en" |} ] /\
  getPageObject
    {| po_title := Some []; po_link := None; po_snippet := None |}
    "https://nodejs.org/en" [directRecord "A"]
  = [directRecord "A"].
Proof.
  split.
  - refine (proj1 (getPageObject_appends_one
                     {| po_title := Some ["Node.js"; "Docs"];
                        po_link := Some ["https://nodejs.org/"];
                        po_snippet := None |}
                     "https://nodejs.org/en" [directRecord "A"])
              ["Node.js"; "Docs"] "Node.js" _ _ _);
      [reflexivity|reflexivity|discriminate].
  - apply (proj1 (proj2 (getPageObject_appends_one _ _ _))).
    intros (arr & t & Harr & Ht & _). simpl in Harr.
    injection Harr as <-. discriminate.
Defined.

(** C6: the code at an input where it leaves the claim.  The page object
    has a truthy first title, and [link] and [snippet] arrays that are
    present but empty (no element matched).  The record that is appended
    has [link] and [snippet] equal to [undefined]: neither a first element
    nor [null], the value that the ternary's other branch and the
    direct-title collector use for "no link". *)
Lemma getPageObject_empty_arrays_give_undefined :
  getPageObject
    {| po_title := Some ["Node.js"]; po_link := Some []; po_snippet := Some [] |}
    "https://nodejs.org/en" []
  = [ {| title := "Node.js"; link := Undefined; snippet := Undefined;
         source := "https://nodejs.org/en" |} ] /\
  Undefined <> Null /\
  (forall x : string, Undefined <> Str x).
Proof. split; [reflexivity|]. split; [discriminate|]. intros x. discriminate. Qed.

Lemma some_title (results : list ResultRecord) (t : string) :
  JS.some (fun r => String.eqb (title r) t) results = true <-> t ∈ titles results.
Proof.
  unfold JS.some, titles. rewrite existsb_exists. split.
  - intros (r & Hr & Heq). apply String.eqb_eq in Heq. subst t.
    apply list_elem_of_fmap_2, list_elem_of_In. exact Hr.
  - intros H. apply list_elem_of_fmap in H as (r & -> & Hr).
    exists r. split; [apply list_elem_of_In; exact Hr|apply String.eqb_refl].
Qed.

Lemma directTitleStep_appends (results : list ResultRecord) (t : string) :
  t <> "" -> t ∉ titles results ->
  directTitleStep results t = results ++ [directRecord t].
Proof.
  intros Hne Hnew. unfold directTitleStep, JS.truthy.
  apply String.eqb_neq in Hne. rewrite Hne.
  destruct (JS.some _ results) eqn:Hsome; [|reflexivity].
  apply some_title in Hsome. contradiction.
Qed.

Lemma directTitleStep_skips (results : list ResultRecord) (t : string) :
  ~ (t <> "" /\ t ∉ titles results) -> directTitleStep results t = results.
Proof.
  intros Hno. unfold directTitleStep, JS.truthy.
  destruct (String.eqb_spec t "") as [_|Hne]; [reflexivity|].
  destruct (JS.some _ results) eqn:Hsome; [reflexivity|].
  exfalso. apply Hno. split; [assumption|].
  intros Hin. apply some_title in Hin. congruence.
Qed.

Lemma getAllItems_snoc (pre : list string) (t a : string)
  (results : list ResultRecord) :
  getAllItems (pre ++ [t]) a results
  = directTitleStep (getAllItems pre a results) t.
Proof. unfold getAllItems. apply fold_left_app. Qed.

Lemma getAllItems_added (items : list string) (a : string) :
  forall results : list ResultRecord,
    exists added : list string,
      getAllItems items a results = results ++ map directRecord added /\
      NoDup added /\
      (forall t, t ∈ added <-> t ∈ items /\ t <> "" /\ t ∉ titles results).
Proof.
  induction items as [|x items IH]; intros results.
  - exists []. split; [symmetry; apply app_nil_r|]. split; [constructor|].
    intros t. split; [intros H; inversion H|intros [H _]; inversion H].
  - change (getAllItems (x :: items) a results)
      with (getAllItems items a (directTitleStep results x)).
    destruct (decide (x <> "" /\ x ∉ titles results)) as [[Hne Hnew]|Hno].
    + rewrite directTitleStep_appends by assumption.
      destruct (IH (results ++ [directRecord x])) as (added & Heq & Hnd & Hiff).
      assert (forall t, t ∈ titles (results ++ [directRecord x])
                        <-> t ∈ titles results \/ t = x) as Htitles.
      { intros t. unfold titles. rewrite fmap_app, elem_of_app.
        simpl. rewrite list_elem_of_singleton. reflexivity. }
      exists (x :: added). split; [|split].
      * rewrite Heq, <- app_assoc. reflexivity.
      * constructor; [|assumption].
        intros Hin. apply Hiff in Hin as (_ & _ & Hin).
        apply Hin, Htitles. now right.
      * intros t. rewrite !elem_of_cons, Hiff, Htitles.
        destruct (decide (t = x)) as [->|Hx]; [tauto|]. tauto.
    + rewrite directTitleStep_skips by assumption.
      destruct (IH results) as (added & Heq & Hnd & Hiff).
      exists added. split; [assumption|]. split; [assumption|].
      intros t. rewrite Hiff, elem_of_cons.
      split; [tauto|]. intros ([->|Hin] & Hne & Hnew); [|tauto].
      exfalso. apply Hno. tauto.
Qed.

(** C7: during one [getAllItems] call, the round that handles heading text
    [t] appends the record [{title: t, link: null, snippet: null,
    source: "search results page"}] iff [t] is non-empty and no record of
    the buffer at that moment has title [t], and otherwise leaves the buffer
    as it is; over the whole call the buffer keeps its old contents and
    gains one such record for each distinct non-empty heading text that was
    no title of the buffer before. *)
Theorem directTitles_appends_new_titles (items : list string) (a : string)
  (results : list ResultRecord) :
  (forall (pre post : list string) (t : string),
      items = pre ++ t :: post ->
      let before := getAllItems pre a results in
      let after := getAllItems (pre ++ [t]) a results in
      (t <> "" /\ t ∉ titles before ->
       after =
       before ++ [ {| title := t; link := Null; snippet := Null;
                      source := "search results page" |} ]) /\
      (~ (t <> "" /\ t ∉ titles before) -> after = before)) /\
  (exists added : list string,
      getAllItems items a results =
      results ++ map (fun t => {| title := t; link := Null; snippet := Null;
                                  source := "search results page" |}) added /\
      NoDup added /\
      (forall t, t ∈ added <-> t ∈ items /\ t <> "" /\ t ∉ titles results)) /\
  results `prefix_of` getAllItems items a results.
Proof.
  split; [|split].
  - intros pre post t _ before after. unfold after, before.
    rewrite getAllItems_snoc. split.
    + intros [Hne Hnew]. rewrite directTitleStep_appends by assumption.
      reflexivity.
    + apply directTitleStep_skips.
  - destruct (getAllItems_added items a results) as (added & Heq & Hrest).
    exists added. split; [|exact Hrest]. rewrite Heq. reflexivity.
  - destruct (getAllItems_added items a results) as (added & -> & _).
    apply prefix_app_r. reflexivity.
Qed.

Lemma directTitles_appends_new_titles_witness :
  getAllItems (["A"; ""] ++ ["B"]) "https://www.google.com/search"
    [directRecord "A"]
  = getAllItems ["A"; ""] "https://www.google.com/search" [directRecord "A"]
    ++ [ {| title := "B"; link := Null; snippet := Null;
            source := "search results page" |} ] /\
  getAllItems (["A"; ""; "B"] ++ ["B"]) "https://www.google.com/search"
    [directRecord "A"]
  = getAllItems ["A"; ""; "B"] "https://www.google.com/search"
      [directRecord "A"].
Proof.
  pose proof (directTitles_appends_new_titles ["A"; ""; "B"; "B"]
                "https://www.google.com/search" [directRecord "A"]) as [H _].
  split.
  - apply (H ["A"; ""] ["B"] "B"); [reflexivity|].
    split; [discriminate|]. vm_compute.
    intros Hin. apply list_elem_of_singleton in Hin. discriminate.
  - apply (H ["A"; ""; "B"] [] "B"); [reflexivity|].
    intros [_ Hnew]. apply Hnew. vm_compute. right. left.
Defined.

(** ** Scrape configuration *)

(** C8: for every query and language code the configuration built by
    [scrapeGoogle] has concurrency 2, 2 retries, a delay of 5000 ms and a
    timeout of 15000 ms, and its [Accept-Language] header is
    [lang-US,lang;q=0.9]; the other headers are fixed; the configuration
    and pagination descriptor handed to the engine depend on [query],
    [pages] and [lang] only, and building them has no other effect. *)
Theorem config_limits_and_headers (query lang : string) :
  let cfg := config (JS.encodeURIComponent query) lang in
  concurrency cfg = 2 /\ maxRetries cfg = 2 /\
  delay cfg = 5000 /\ timeout cfg = 15000 /\
  headers cfg !! "Accept-Language"
  = Some (lang +:+ "-US," +:+ lang +:+ ";q=0.9") /\
  headers cfg !! "Referer" = Some "https://www.google.com/" /\
  headers cfg !! "Sec-Fetch-Dest" = Some "document" /\
  headers cfg !! "Sec-Fetch-Mode" = Some "navigate" /\
  headers cfg !! "Sec-Fetch-Site" = Some "same-origin" /\
  is_Some (headers cfg !! "User-Agent") /\
  is_Some (headers cfg !! "Accept") /\
  (forall (engine : Engine) (pages : JS.number),
      fst (scrapeGoogle engine query pages lang) = [Scrape cfg (root pages)]).
Proof.
  intros cfg. repeat (split; [reflexivity|]).
  split; [eexists; reflexivity|]. split; [eexists; reflexivity|].
  intros engine pages. unfold scrapeGoogle.
  fold cfg. generalize (engine cfg (root pages)). intros run.
  destruct (rejected run); reflexivity.
Qed.

(** ** The [/search] endpoint: a query that passes validation *)

Lemma searchHandler_resolved (w : World) (req : Request) (query : string) :
  q req = Text query -> JS.trim query <> "" ->
  let pagesN := JS.parseInt (default "1" (pages req)) in
  let cfg := config (JS.encodeURIComponent query) (default "en" (lang req)) in
  let run := scrape w cfg (root pagesN) in
  let collected := fold_left runCallback (callbacks run) [] in
  rejected run = None ->
  searchHandler w req =
  ( [ SetHeader "Access-Control-Allow-Origin" "*";
      SetHeader "Content-Type" "application/json";
      Scrape cfg (root pagesN) ],
    inr {| status := 200;
           body := SearchBody true query pagesN
                     (JS.length (normalize collected pagesN)) (now w)
                     (normalize collected pagesN) |} ).
Proof.
  intros Hq Hvalid pagesN cfg run collected Hrun.
  unfold searchHandler, scrapeGoogle. cbv zeta.
  rewrite Hq, (validateQuery_valid query Hvalid).
  unfold mbind, Io_bind, bind, emit. cbn beta iota.
  unfold collected, run, cfg, pagesN in *.
  rewrite Hrun. reflexivity.
Qed.

Lemma searchHandler_rejected (w : World) (req : Request)
  (query message : string) :
  q req = Text query -> JS.trim query <> "" ->
  let pagesN := JS.parseInt (default "1" (pages req)) in
  let cfg := config (JS.encodeURIComponent query) (default "en" (lang req)) in
  let run := scrape w cfg (root pagesN) in
  rejected run = Some message ->
  searchHandler w req =
  ( [ SetHeader "Access-Control-Allow-Origin" "*";
      SetHeader "Content-Type" "application/json";
      Scrape cfg (root pagesN);
      ConsoleError "Scraping error:" message ],
    inr (scrapeFailure message) ).
Proof.
  intros Hq Hvalid pagesN cfg run Hrun.
  unfold searchHandler, scrapeGoogle. cbv zeta.
  rewrite Hq, (validateQuery_valid query Hvalid).
  unfold mbind, Io_bind, bind, emit. cbn beta iota.
  unfold run, cfg, pagesN in *.
  rewrite Hrun. reflexivity.
Qed.

Lemma searchHandler_structured (w : World) (req : Request) :
  q req = Structured ->
  searchHandler w req =
  ( [ ConsoleError "Scraping error:" "query.trim is not a function" ],
    inr (scrapeFailure "query.trim is not a function") ).
Proof. intros Hq. unfold searchHandler. rewrite Hq. reflexivity. Qed.

(** The handler always answers: no error escapes its [try]/[catch], and the
    status is 200, 400 or 500. *)
Lemma searchHandler_answers (w : World) (req : Request) :
  exists (log : list Effect) (resp : Response),
    searchHandler w req = (log, inr resp) /\
    (status resp = 200 \/ status resp = 400 \/ status resp = 500).
Proof.
  destruct (q req) as [|s|] eqn:Hq.
  - exists [], badRequest. split; [|right; left; reflexivity].
    unfold searchHandler. rewrite Hq. reflexivity.
  - destruct (String.eqb_spec (JS.trim s) "") as [Hs|Hs].
    + exists [], badRequest. split; [|right; left; reflexivity].
      unfold searchHandler. rewrite Hq, (validateQuery_missing s Hs).
      reflexivity.
    + destruct (rejected
                  (scrape w
                     (config (JS.encodeURIComponent s)
                        (default "en" (lang req)))
                     (root (JS.parseInt (default "1" (pages req))))))
        as [message|] eqn:Hrun.
      * rewrite (searchHandler_rejected w req s message Hq Hs Hrun).
        do 2 eexists. split; [reflexivity|right; right; reflexivity].
      * rewrite (searchHandler_resolved w req s Hq Hs Hrun).
        do 2 eexists. split; [reflexivity|left; reflexivity].
  - rewrite (searchHandler_structured w req Hq).
    do 2 eexists. split; [reflexivity|right; right; reflexivity].
Qed.

(** C9, as stated, fails: a rejected scrape is answered with status 500; a
    negative [pages] gives status 200 with 15 results, more than
    [pages * 10 = -10]; and for an unparsable [pages] the comparison
    [results.length <= NaN] is false. *)
Lemma search_valid_query_counterexamples :
  JS.trim "nodejs" <> "" /\
  snd (searchHandler (sampleWorld failingEngine) (sampleRequest "nodejs" None))
  = inr (scrapeFailure "Network Error") /\
  status (scrapeFailure "Network Error") = 500 /\
  snd (searchHandler (sampleWorld sampleEngine)
         (sampleRequest "nodejs" (Some "-1")))
  = inr {| status := 200;
           body := SearchBody true "nodejs" (JS.Int (-1)) (JS.Int 15)
                     "2024-01-01T00:00:00.000Z" (take 15 sampleBuffer) |} /\
  JS.leb (JS.length (take 15 sampleBuffer)) (JS.mul (JS.Int (-1)) (JS.Int 10))
  = false /\
  snd (searchHandler (sampleWorld sampleEngine)
         (sampleRequest "nodejs" (Some "many")))
  = inr {| status := 200;
           body := SearchBody true "nodejs" JS.NaN (JS.Int 0)
                     "2024-01-01T00:00:00.000Z" [] |} /\
  JS.leb (JS.length (@nil ResultRecord)) (JS.mul JS.NaN (JS.Int 10)) = false.
Proof.
  split; [vm_compute; discriminate|].
  repeat split; vm_compute; reflexivity.
Qed.

(** C9 (amended): for every query whose trimmed value is not empty, when
    the engine's scrape resolves, [/search] answers with status 200 and the
    normalized results, and [results.length <= pages * 10] holds whenever
    [pages] parses to an integer that is not negative (an absent [pages]
    counts as 1); when the scrape is rejected it answers with status 500. *)
Theorem search_valid_query (w : World) (req : Request) (query : string) :
  q req = Text query -> JS.trim query <> "" ->
  let pagesN := JS.parseInt (default "1" (pages req)) in
  let run :=
    scrape w (config (JS.encodeURIComponent query) (default "en" (lang req)))
      (root pagesN) in
  (rejected run = None ->
   exists resp : Response,
     snd (searchHandler w req) = inr resp /\
     status resp = 200 /\
     responseResults resp
     = normalize (fold_left runCallback (callbacks run) []) pagesN /\
     (forall p : Z,
         pagesN = JS.Int p -> 0 <= p ->
         JS.leb (JS.length (responseResults resp)) (JS.mul pagesN (JS.Int 10))
         = true)) /\
  (forall message : string,
      rejected run = Some message ->
      snd (searchHandler w req) = inr (scrapeFailure message) /\
      status (scrapeFailure message) = 500).
Proof.
  intros Hq Hvalid pagesN run. split.
  - intros Hrun. eexists. split.
    + rewrite (searchHandler_resolved w req query Hq Hvalid Hrun). reflexivity.
    + split; [reflexivity|]. split; [reflexivity|].
      intros p Hp Hnonneg. unfold responseResults. cbn [body].
      fold pagesN. rewrite Hp. unfold JS.leb, JS.length, JS.mul.
      apply Z.leb_le. apply normalize_length_bound. assumption.
  - intros message Hrun. split; [|reflexivity].
    rewrite (searchHandler_rejected w req query message Hq Hvalid Hrun).
    reflexivity.
Qed.

Lemma search_valid_query_witness :
  exists resp : Response,
    snd (searchHandler (sampleWorld sampleEngine)
           (sampleRequest "nodejs" (Some "2"))) = inr resp /\
    status resp = 200 /\
    JS.leb (JS.length (responseResults resp))
      (JS.mul (JS.parseInt "2") (JS.Int 10)) = true.
Proof.
  destruct (search_valid_query (sampleWorld sampleEngine)
              (sampleRequest "nodejs" (Some "2")) "nodejs")
    as [Hok _]; [reflexivity|vm_compute; discriminate|].
  destruct Hok as (resp & Hresp & Hstatus & _ & Hbound); [reflexivity|].
  exists resp. split; [exact Hresp|]. split; [exact Hstatus|].
  apply (Hbound 2); [reflexivity|lia].
Defined.

(** C10: [pages] is not validated.  For a query that passes validation and
    a [pages] text that [parseInt] turns into [NaN], the handler answers,
    and not with status 400; when the scrape resolves the answer is status
    200 with [pages = NaN], [totalResults = 0] and an empty [results]
    array. *)
Theorem search_unparsable_pages (w : World) (req : Request)
  (query s : string) :
  q req = Text query -> JS.trim query <> "" ->
  pages req = Some s -> JS.parseInt s = JS.NaN ->
  let run :=
    scrape w (config (JS.encodeURIComponent query) (default "en" (lang req)))
      (root JS.NaN) in
  (exists resp : Response,
      snd (searchHandler w req) = inr resp /\ status resp <> 400) /\
  (rejected run = None ->
   snd (searchHandler w req)
   = inr {| status := 200;
            body := SearchBody true query JS.NaN (JS.Int 0) (now w) [] |}).
Proof.
  intros Hq Hvalid Hpages Hnan run.
  assert (JS.parseInt (default "1" (pages req)) = JS.NaN) as HpagesN
    by (rewrite Hpages; exact Hnan).
  assert (rejected run = None ->
          snd (searchHandler w req)
          = inr {| status := 200;
                   body := SearchBody true query JS.NaN (JS.Int 0) (now w) [] |})
    as Hok.
  { intros Hrun. unfold run in Hrun. rewrite <- HpagesN in Hrun.
    rewrite (searchHandler_resolved w req query Hq Hvalid Hrun).
    rewrite HpagesN, normalize_NaN. reflexivity. }
  split; [|exact Hok].
  destruct (rejected run) as [message|] eqn:Hrun.
  - exists (scrapeFailure message). split; [|discriminate].
    unfold run in Hrun. rewrite <- HpagesN in Hrun.
    rewrite (searchHandler_rejected w req query message Hq Hvalid Hrun).
    reflexivity.
  - eexists. split; [apply Hok; reflexivity|discriminate].
Qed.

Lemma search_unparsable_pages_witness :
  snd (searchHandler (sampleWorld sampleEngine)
         (sampleRequest "nodejs" (Some "many")))
  = inr {| status := 200;
           body := SearchBody true "nodejs" JS.NaN (JS.Int 0)
                     "2024-01-01T00:00:00.000Z" [] |}.
Proof.
  apply (search_unparsable_pages (sampleWorld sampleEngine)
           (sampleRequest "nodejs" (Some "many")) "nodejs" "many");
    [reflexivity|vm_compute; discriminate|reflexivity|reflexivity|reflexivity].
Defined.

(** * Further properties of the code *)

(** ** Normalizer *)

Lemma keepFirst_find (t : string) (l : list ResultRecord) :
  forall seen : gset string,
    find (fun r => String.eqb (title r) t) (keepFirst seen l) =
    if decide (t ∈ seen) then None
    else find (fun r => String.eqb (title r) t) l.
Proof.
  induction l as [|r l IH]; intros seen; simpl.
  - destruct (decide _); reflexivity.
  - destruct (decide (title r ∈ seen)) as [Hr|Hr]; simpl.
    + rewrite IH. destruct (decide (t ∈ seen)) as [Ht|Ht]; [reflexivity|].
      destruct (String.eqb_spec (title r) t) as [Heq|_]; [|reflexivity].
      subst t. contradiction.
    + destruct (String.eqb_spec (title r) t) as [Heq|Hne].
      * subst t. destruct (decide _); [contradiction|reflexivity].
      * rewrite IH.
        destruct (decide (t ∈ seen)) as [Ht|Ht];
          destruct (decide _) as [Ht'|Ht']; try reflexivity; exfalso.
        -- apply Ht'. apply elem_of_union. now right.
        -- apply elem_of_union in Ht' as [Ht'|Ht']; [|contradiction].
           apply elem_of_singleton in Ht'. congruence.
Qed.

(** X1: for every title, the record that survives the dedup stage is the
    first record of the buffer with that title, with its own link, snippet
    and source: looking a title up in the deduplicated buffer gives the
    same record as looking it up in the buffer. *)
Theorem uniqueResults_first_record_wins (results : list ResultRecord)
  (t : string) :
  find (fun r => String.eqb (title r) t) (uniqueResults results)
  = find (fun r => String.eqb (title r) t) results.
Proof.
  rewrite uniqueResults_firstOccurrences. unfold firstOccurrences.
  rewrite keepFirst_find. destruct (decide _) as [Hin|_]; [|reflexivity].
  now apply not_elem_of_empty in Hin.
Qed.

Lemma keepFirst_length (l : list ResultRecord) :
  forall seen : gset string,
    List.length (keepFirst seen l)
    = size (list_to_set (titles l) ∖ seen : gset string).
Proof.
  induction l as [|r l IH]; intros seen.
  - simpl. rewrite difference_disjoint_L by apply disjoint_empty_l.
    symmetry. apply size_empty.
  - cbn [keepFirst titles map list_to_set].
    destruct (decide (title r ∈ seen)) as [Hr|Hr].
    + rewrite IH. f_equal. apply set_eq. intros t.
      rewrite !elem_of_difference, elem_of_union, elem_of_singleton.
      split; [tauto|]. intros [[->|Ht] Hs]; [contradiction|tauto].
    + cbn [List.length]. rewrite IH.
      assert (({[title r]} ∪ list_to_set (map title l)) ∖ seen =@{gset string}
              {[title r]}
              ∪ (list_to_set (titles l) ∖ ({[title r]} ∪ seen))) as ->.
      { apply set_eq. intros t.
        rewrite elem_of_union, !elem_of_difference, !elem_of_union,
          elem_of_singleton.
        destruct (decide (t = title r)) as [->|Hne]; [tauto|tauto]. }
      transitivity (size ({[title r]} : gset string)
                    + size (list_to_set (titles l) ∖ ({[title r]} ∪ seen)
                            : gset string))%nat;
        [rewrite size_singleton; reflexivity|].
      symmetry. apply size_union.
      intros t Ht1 Ht2. apply elem_of_singleton in Ht1. subst t.
      apply elem_of_difference in Ht2 as [_ Ht2]. apply Ht2.
      apply elem_of_union. left. now apply elem_of_singleton.
Qed.

(** X2: the dedup stage returns as many records as the buffer has distinct
    titles. *)
Theorem uniqueResults_counts_distinct_titles (results : list ResultRecord) :
  List.length (uniqueResults results)
  = size (list_to_set (titles results) : gset string).
Proof.
  rewrite uniqueResults_firstOccurrences. unfold firstOccurrences.
  rewrite keepFirst_length. f_equal. apply difference_empty_L.
Qed.

(** X3: for page counts that are not negative the truncation is monotone:
    the output for [p] pages is a prefix of the output for [p'] pages
    whenever [p <= p']. *)
Theorem normalize_monotone (results : list ResultRecord) (p p' : Z) :
  0 <= p -> p <= p' ->
  normalize results (JS.Int p) `prefix_of` normalize results (JS.Int p').
Proof.
  intros Hp Hpp'. rewrite !normalize_nonneg by lia.
  replace (Z.to_nat (p * 10))
    with (Z.to_nat (p * 10) `min` Z.to_nat (p' * 10))%nat by lia.
  rewrite <- take_take. apply prefix_take.
Qed.

Lemma normalize_monotone_witness :
  normalize sampleBuffer (JS.Int 1) `prefix_of` normalize sampleBuffer (JS.Int 2).
Proof. apply normalize_monotone; lia. Defined.

(** X4: when [pages * 10] reaches the number of deduplicated records,
    nothing is cut: the normalizer returns the whole deduplicated buffer. *)
Theorem normalize_enough_pages (results : list ResultRecord) (p : Z) :
  Z.of_nat (List.length (uniqueResults results)) <= p * 10 ->
  normalize results (JS.Int p) = uniqueResults results.
Proof.
  intros Hlen. rewrite normalize_nonneg by lia. apply take_ge. lia.
Qed.

Lemma normalize_enough_pages_witness :
  normalize sampleBuffer (JS.Int 3) = uniqueResults sampleBuffer.
Proof. apply normalize_enough_pages. vm_compute. discriminate. Defined.

(** X5: for a negative page count [p], [slice(0, p * 10)] removes the last
    [-p * 10] deduplicated records and returns the prefix that is left: the
    result has that many records fewer, and it is empty exactly when the
    deduplicated buffer has at most [-p * 10] records. *)
Theorem normalize_negative_pages (results : list ResultRecord) (p : Z) :
  p < 0 ->
  let u := uniqueResults results in
  let cut := Z.to_nat (- p * 10) in
  normalize results (JS.Int p) = take (List.length u - cut) u /\
  List.length (normalize results (JS.Int p)) = (List.length u - cut)%nat /\
  (normalize results (JS.Int p) = [] <-> (List.length u <= cut)%nat).
Proof.
  intros Hp u cut.
  assert (normalize results (JS.Int p) = take (List.length u - cut) u) as Heq.
  { unfold normalize. cbn [JS.mul]. rewrite slice_from_zero.
    cbn [JS.toIntegerOrInfinity]. unfold JS.relativeIndex.
    destruct (Z.ltb_spec (p * 10) 0) as [_|?]; [|lia].
    unfold u, cut. f_equal. lia. }
  assert (List.length (normalize results (JS.Int p))
          = (List.length u - cut)%nat) as Hlen.
  { rewrite Heq, length_take. lia. }
  split; [exact Heq|]. split; [exact Hlen|].
  rewrite <- length_zero_iff_nil, Hlen. lia.
Qed.

Lemma normalize_negative_pages_witness :
  List.length (normalize sampleBuffer (JS.Int (-2))) = 5%nat /\
  normalize sampleBuffer (JS.Int (-3)) = [].
Proof.
  split.
  - rewrite (proj1 (proj2 (normalize_negative_pages sampleBuffer (-2)
                             ltac:(lia)))).
    reflexivity.
  - apply (proj2 (proj2 (normalize_negative_pages sampleBuffer (-3)
                           ltac:(lia)))).
    vm_compute. lia.
Defined.

Lemma keepFirst_filter (l : list ResultRecord) :
  forall seen extra : gset string,
    keepFirst (extra ∪ seen) l
    = List.filter (fun r => bool_decide (title r ∉ extra)) (keepFirst seen l).
Proof.
  induction l as [|r l IH]; intros seen extra; [reflexivity|].
  cbn [keepFirst].
  destruct (decide (title r ∈ seen)) as [Hs|Hs].
  - rewrite <- IH. destruct (decide _) as [_|Hn]; [reflexivity|].
    exfalso. apply Hn, elem_of_union. now right.
  - cbn [List.filter]. rewrite <- IH.
    destruct (decide (title r ∈ extra)) as [He|He].
    + rewrite bool_decide_eq_false_2 by (intros Hc; contradiction).
      destruct (decide _) as [_|Hn].
      * f_equal. apply set_eq. intros t.
        rewrite !elem_of_union, elem_of_singleton.
        split; [tauto|]. intros [?|[->|?]]; tauto.
      * exfalso. apply Hn, elem_of_union. now left.
    + rewrite bool_decide_eq_true_2 by assumption.
      destruct (decide _) as [Hin|_].
      * exfalso. apply elem_of_union in Hin as [?|?]; contradiction.
      * f_equal. f_equal. apply set_eq. intros t.
        rewrite !elem_of_union. tauto.
Qed.

Lemma keepFirst_app (a b : list ResultRecord) :
  forall seen : gset string,
    keepFirst seen (a ++ b)
    = keepFirst seen a ++ keepFirst (list_to_set (titles a) ∪ seen) b.
Proof.
  induction a as [|r a IH]; intros seen.
  - simpl. rewrite union_empty_l_L. reflexivity.
  - cbn [app keepFirst titles map list_to_set].
    destruct (decide _) as [Hs|Hs].
    + rewrite IH. f_equal. f_equal. apply set_eq. intros t.
      rewrite !elem_of_union, elem_of_singleton.
      split; [tauto|]. intros [[->|?]|?]; tauto.
    + cbn [app]. f_equal. rewrite IH. f_equal. f_equal.
      apply set_eq. intros t. rewrite !elem_of_union. tauto.
Qed.

(** X6: deduplication can be done piecewise: the deduplicated concatenation
    of two buffers is the deduplicated first buffer followed by those
    deduplicated records of the second whose title does not occur in the
    first. *)
Theorem uniqueResults_app (a b : list ResultRecord) :
  uniqueResults (a ++ b)
  = uniqueResults a
    ++ List.filter (fun r => bool_decide (title r ∉ titles a))
         (uniqueResults b).
Proof.
  rewrite !uniqueResults_firstOccurrences. unfold firstOccurrences.
  rewrite keepFirst_app. f_equal.
  rewrite keepFirst_filter. apply filter_ext. intros r.
  apply bool_decide_ext. rewrite elem_of_list_to_set. reflexivity.
Qed.

(** ** Collector callbacks and the shared buffer *)

Lemma titles_app_direct (results : list ResultRecord) (added : list string) :
  titles (results ++ map directRecord added) = titles results ++ added.
Proof.
  unfold titles. rewrite map_app, map_map. f_equal.
  induction added as [|t added IH]; [reflexivity|].
  simpl. f_equal. exact IH.
Qed.

Lemma getAllItems_nothing_new (items : list string) (a : string) :
  forall results : list ResultRecord,
    (forall t, t ∈ items -> t = "" \/ t ∈ titles results) ->
    getAllItems items a results = results.
Proof.
  induction items as [|x items IH]; intros results Hknown; [reflexivity|].
  change (getAllItems (x :: items) a results)
    with (getAllItems items a (directTitleStep results x)).
  rewrite directTitleStep_skips.
  - apply IH. intros t Ht. apply Hknown. now right.
  - intros [Hne Hnew]. destruct (Hknown x) as [?|?]; [left|..]; contradiction.
Qed.

(** X7: delivering the same heading texts a second time changes nothing:
    [getAllItems] applied to its own result, with the same items, returns
    that result. *)
Theorem getAllItems_idempotent (items : list string) (a a' : string)
  (results : list ResultRecord) :
  getAllItems items a' (getAllItems items a results)
  = getAllItems items a results.
Proof.
  apply getAllItems_nothing_new. intros t Ht.
  destruct (getAllItems_added items a results) as (added & -> & _ & Hiff).
  rewrite titles_app_direct, elem_of_app.
  destruct (decide (t = "")) as [?|Hne]; [now left|right].
  destruct (decide (t ∈ titles results)) as [?|Hnew]; [now left|right].
  apply Hiff. auto.
Qed.

(** X8: the direct-title collector never introduces a duplicate title: if
    the titles of the buffer are pairwise different before [getAllItems],
    they are pairwise different after it. *)
Theorem getAllItems_keeps_titles_distinct (items : list string) (a : string)
  (results : list ResultRecord) :
  NoDup (titles results) -> NoDup (titles (getAllItems items a results)).
Proof.
  intros Hnd.
  destruct (getAllItems_added items a results) as (added & -> & Hadded & Hiff).
  rewrite titles_app_direct. apply NoDup_app. split; [assumption|].
  split; [|assumption].
  intros t Ht Hin. apply Hiff in Hin as (_ & _ & Hnew). contradiction.
Qed.

Lemma getAllItems_keeps_titles_distinct_witness :
  NoDup (titles (getAllItems ["B"; "A"; "B"] "https://www.google.com/search"
                   [directRecord "A"])).
Proof.
  apply getAllItems_keeps_titles_distinct.
  apply (bool_decide_unpack _). vm_compute. exact I.
Defined.

Lemma getPageObject_titles (pageObject : PageObject) (a : string)
  (results : list ResultRecord) (t : string) :
  t ∈ titles (getPageObject pageObject a results) <->
  t ∈ titles results \/
  (t <> "" /\ t ∈ callbackTitles (SearchResult pageObject a)).
Proof.
  unfold getPageObject, callbackTitles.
  destruct (po_title pageObject) as [[|t0 rest]|].
  - split; [now left|]. intros [?|[_ H]]; [assumption|inversion H].
  - unfold JS.truthy. destruct (String.eqb_spec t0 "") as [->|Hne]; simpl.
    + split; [now left|]. intros [?|[Hne H]]; [assumption|].
      apply list_elem_of_singleton in H. contradiction.
    + unfold push, titles. rewrite map_app, elem_of_app. simpl.
      rewrite list_elem_of_singleton. split.
      * intros [?| ->]; [now left|right]. split; [assumption|reflexivity].
      * intros [?|[_ ?]]; [now left|now right].
  - split; [now left|]. intros [?|[_ H]]; [assumption|inversion H].
Qed.

Lemma runCallback_titles (c : Callback) (results : list ResultRecord)
  (t : string) :
  t ∈ titles (runCallback results c) <->
  t ∈ titles results \/ (t <> "" /\ t ∈ callbackTitles c).
Proof.
  destruct c as [pageObject a|items a]; [apply getPageObject_titles|].
  simpl.
  destruct (getAllItems_added items a results) as (added & -> & _ & Hiff).
  rewrite titles_app_direct, elem_of_app, Hiff.
  destruct (decide (t ∈ titles results)); tauto.
Qed.

Lemma fold_runCallback_titles (cs : list Callback) :
  forall (results : list ResultRecord) (t : string),
    t ∈ titles (fold_left runCallback cs results) <->
    t ∈ titles results \/
    (t <> "" /\ exists c, c ∈ cs /\ t ∈ callbackTitles c).
Proof.
  induction cs as [|c cs IH]; intros results t; simpl.
  - split; [now left|]. intros [?|(_ & c & Hc & _)]; [assumption|inversion Hc].
  - rewrite IH, runCallback_titles. split.
    + intros [[?|[Hne Hc]]|(Hne & c' & Hc' & Ht)].
      * now left.
      * right. split; [assumption|]. exists c. split; [left|assumption].
      * right. split; [assumption|]. exists c'. split; [now right|assumption].
    + intros [?|(Hne & c' & Hc' & Ht)]; [left; now left|].
      apply elem_of_cons in Hc' as [->|Hc'].
      * left. right. now split.
      * right. split; [assumption|]. now exists c'.
Qed.

(** X9: the titles in the buffer at the end of a scrape are exactly the
    non-empty texts the engine offered: a string is the title of a collected
    record iff it is not empty and is the first title of some delivered page
    object or one of the heading texts of some direct collection.  No offered
    title is lost and no other title appears. *)
Theorem collect_titles (cs : list Callback) (t : string) :
  t ∈ titles (collect cs) <->
  t <> "" /\ exists c, c ∈ cs /\ t ∈ callbackTitles c.
Proof.
  unfold collect. rewrite fold_runCallback_titles. split.
  - intros [H|H]; [inversion H|exact H].
  - intros H. now right.
Qed.

Lemma collect_titles_witness :
  "A" ∈ titles (collect [DirectTitle [""; "A"] "https://www.google.com/search"]).
Proof.
  apply collect_titles. split; [discriminate|].
  eexists. split; [left|]. right. left.
Defined.

(** X10: the deduplicated buffer does not depend on the order in which the
    engine invokes the callbacks, as far as its titles go: for two orders of
    the same callbacks the deduplicated buffers have the same titles and the
    same number of records.  Hence, whenever [pages * 10] is at least that
    number, so that the final slice cuts nothing, the returned results have
    the same titles for both orders.  (When the slice does cut, which titles
    survive depends on the order.) *)
Theorem collect_order_irrelevant (cs cs' : list Callback) :
  cs ≡ₚ cs' ->
  (forall t, t ∈ titles (uniqueResults (collect cs))
             <-> t ∈ titles (uniqueResults (collect cs'))) /\
  List.length (uniqueResults (collect cs))
  = List.length (uniqueResults (collect cs')) /\
  (forall (p : Z) (t : string),
      Z.of_nat (List.length (uniqueResults (collect cs))) <= p * 10 ->
      t ∈ titles (normalize (collect cs) (JS.Int p))
      <-> t ∈ titles (normalize (collect cs') (JS.Int p))).
Proof.
  intros Hperm.
  assert (forall t, t ∈ titles (collect cs) <-> t ∈ titles (collect cs'))
    as Hsame.
  { intros t. unfold collect. rewrite !fold_runCallback_titles.
    split; (intros [?|(Hne & c & Hc & Ht)]; [now left|right]);
      (split; [assumption|]); exists c; (split; [|assumption]).
    - now rewrite <- Hperm.
    - now rewrite Hperm. }
  assert (forall t, t ∈ titles (uniqueResults (collect cs))
                    <-> t ∈ titles (uniqueResults (collect cs'))) as Htitles.
  { intros t. rewrite !uniqueResults_firstOccurrences. unfold firstOccurrences.
    split; intros H; apply keepFirst_titles_fresh in H as [_ H];
      (apply keepFirst_complete; [apply Hsame; exact H|apply not_elem_of_empty]). }
  assert (List.length (uniqueResults (collect cs))
          = List.length (uniqueResults (collect cs'))) as Hlen.
  { rewrite !uniqueResults_firstOccurrences. unfold firstOccurrences.
    rewrite !keepFirst_length. f_equal. apply set_eq. intros t.
    rewrite !elem_of_difference, !elem_of_list_to_set, Hsame. reflexivity. }
  split; [exact Htitles|]. split; [exact Hlen|].
  intros p t Hp.
  rewrite !normalize_nonneg by lia.
  rewrite !take_ge by lia. apply Htitles.
Qed.

Lemma collect_order_irrelevant_witness :
  List.length
    (uniqueResults
       (collect [DirectTitle ["A"; "B"] "p";
                 SearchResult {| po_title := Some ["A"]; po_link := None;
                                 po_snippet := None |} "q"]))
  = List.length
      (uniqueResults
         (collect [SearchResult {| po_title := Some ["A"]; po_link := None;
                                   po_snippet := None |} "q";
                   DirectTitle ["A"; "B"] "p"])).
Proof. apply collect_order_irrelevant. apply Permutation_swap. Defined.

Lemma directTitleStep_length (results : list ResultRecord) (t : string) :
  (List.length (directTitleStep results t) <= S (List.length results))%nat.
Proof.
  unfold directTitleStep, push. destruct (_ && _).
  - rewrite length_app. simpl. lia.
  - lia.
Qed.

Lemma runCallback_grows (c : Callback) (results : list ResultRecord) :
  results `prefix_of` runCallback results c /\
  (List.length (runCallback results c)
   <= List.length results + List.length (callbackTitles c))%nat.
Proof.
  destruct c as [pageObject a|items a]; simpl.
  - unfold getPageObject.
    destruct (po_title pageObject) as [[|t0 rest]|]; simpl;
      try (split; [reflexivity|lia]).
    destruct (JS.truthy t0); [|split; [reflexivity|lia]].
    unfold push. split; [now apply prefix_app_r|].
    rewrite length_app. simpl. lia.
  - split.
    + destruct (getAllItems_added items a results) as (added & -> & _).
      now apply prefix_app_r.
    + revert results. induction items as [|x items IH]; intros results.
      * simpl. lia.
      * change (getAllItems (x :: items) a results)
          with (getAllItems items a (directTitleStep results x)).
        specialize (IH (directTitleStep results x)).
        pose proof (directTitleStep_length results x). simpl. lia.
Qed.

(** X11: the callbacks only ever append: whatever sequence of callbacks the
    engine invokes, the buffer it started from is a prefix of the resulting
    buffer, and the buffer grows by at most one record per delivered page
    object and one record per delivered heading text. *)
Theorem callbacks_only_append (cs : list Callback)
  (results : list ResultRecord) :
  results `prefix_of` fold_left runCallback cs results /\
  (List.length (fold_left runCallback cs results)
   <= List.length results + List.length (concat (map callbackTitles cs)))%nat.
Proof.
  revert results. induction cs as [|c cs IH]; intros results; simpl.
  - split; [reflexivity|lia].
  - destruct (IH (runCallback results c)) as [Hpre Hlen].
    destruct (runCallback_grows c results) as [Hpre' Hlen'].
    split; [etransitivity; eassumption|].
    rewrite length_app. lia.
Qed.

(** ** The application *)

Lemma application_search (w : World) (nodeEnv : option string)
  (req : Request) (log : list Effect) (resp : Response) :
  searchHandler w req = (log, inr resp) ->
  application w nodeEnv SearchEndpoint req
  = (log, inr {| app_status := status resp;
                 app_body := SearchResponse (body resp) |}).
Proof.
  intros H. unfold application, mbind, Io_bind, bind, tryCatch.
  rewrite H. cbn. rewrite app_nil_r. reflexivity.
Qed.

(** X12: over the whole application the engine is invoked exactly once per
    request when the router selected [/search] and the trimmed query is not
    empty, and not at all in every other case (another endpoint, an
    unmatched path, a missing, blank or non-string query). *)
Theorem engine_called_once_iff_valid_search (w : World)
  (nodeEnv : option string) (e : Endpoint) (req : Request) :
  engineCalls (fst (application w nodeEnv e req)) =
  match e, q req with
  | SearchEndpoint, Text s => if String.eqb (JS.trim s) "" then 0%nat else 1%nat
  | _, _ => 0%nat
  end.
Proof.
  destruct e; try (destruct (q req) as [|s|]; reflexivity).
  destruct (q req) as [|s|] eqn:Hq.
  - rewrite (application_search w nodeEnv req [] badRequest); [reflexivity|].
    unfold searchHandler. rewrite Hq. reflexivity.
  - destruct (String.eqb_spec (JS.trim s) "") as [Hs|Hs].
    + rewrite (application_search w nodeEnv req [] badRequest); [reflexivity|].
      unfold searchHandler. rewrite Hq, (validateQuery_missing s Hs).
      reflexivity.
    + destruct (rejected
                  (scrape w
                     (config (JS.encodeURIComponent s)
                        (default "en" (lang req)))
                     (root (JS.parseInt (default "1" (pages req))))))
        as [message|] eqn:Hrun.
      * erewrite application_search
          by exact (searchHandler_rejected w req s message Hq Hs Hrun).
        reflexivity.
      * erewrite application_search
          by exact (searchHandler_resolved w req s Hq Hs Hrun).
        reflexivity.
  - erewrite application_search by exact (searchHandler_structured w req Hq).
    reflexivity.
Qed.

(** No route handler lets an error escape: a request that reaches the
    routes is answered by the selected handler, and the console line of the
    error-handling middleware is not logged.  [/] and [/health] answer 200
    and an unmatched path 404, all three without any effect; [/search]
    answers 200, 400 or 500. *)
Lemma application_always_answers (w : World) (nodeEnv : option string)
  (e : Endpoint) (req : Request) :
  exists (log : list Effect) (resp : AppResponse),
    application w nodeEnv e req = (log, inr resp) /\
    (forall message, ConsoleError "Server error:" message ∉ log) /\
    match e with
    | RootEndpoint | HealthEndpoint => app_status resp = 200 /\ log = []
    | Unmatched => app_status resp = 404 /\ log = []
    | SearchEndpoint =>
        app_status resp = 200 \/ app_status resp = 400 \/ app_status resp = 500
    end.
Proof.
  destruct e.
  - do 2 eexists. split; [reflexivity|]. split; [|split; reflexivity].
    intros message. apply not_elem_of_nil.
  - destruct (q req) as [|s|] eqn:Hq.
    + do 2 eexists. split.
      * apply (application_search w nodeEnv req [] badRequest).
        unfold searchHandler. rewrite Hq. reflexivity.
      * split; [intros message; apply not_elem_of_nil|]. right. left.
        reflexivity.
    + destruct (String.eqb_spec (JS.trim s) "") as [Hs|Hs].
      * do 2 eexists. split.
        -- apply (application_search w nodeEnv req [] badRequest).
           unfold searchHandler. rewrite Hq, (validateQuery_missing s Hs).
           reflexivity.
        -- split; [intros message; apply not_elem_of_nil|]. right. left.
           reflexivity.
      * destruct (rejected
                    (scrape w
                       (config (JS.encodeURIComponent s)
                          (default "en" (lang req)))
                       (root (JS.parseInt (default "1" (pages req))))))
          as [message|] eqn:Hrun.
        -- do 2 eexists. split.
           ++ apply application_search.
              exact (searchHandler_rejected w req s message Hq Hs Hrun).
           ++ split; [|right; right; reflexivity].
              intros m Hin. rewrite !elem_of_cons in Hin.
              destruct Hin as [H|[H|[H|[H|H]]]]; try discriminate.
              inversion H.
        -- do 2 eexists. split.
           ++ apply application_search.
              exact (searchHandler_resolved w req s Hq Hs Hrun).
           ++ split; [|left; reflexivity].
              intros m Hin. rewrite !elem_of_cons in Hin.
              destruct Hin as [H|[H|[H|H]]]; try discriminate.
              inversion H.
    + do 2 eexists. split.
      * apply application_search. exact (searchHandler_structured w req Hq).
      * split; [|right; right; reflexivity].
        intros m Hin. apply list_elem_of_singleton in Hin. discriminate.
  - do 2 eexists. split; [reflexivity|]. split; [|split; reflexivity].
    intros message. apply not_elem_of_nil.
  - do 2 eexists. split; [reflexivity|]. split; [|split; reflexivity].
    intros message. apply not_elem_of_nil.
Qed.

(** X13: every request gets an answer.  When a middleware raises an error,
    no route runs: the error-handling middleware logs one console line and
    answers 500, and the engine is not invoked.  When the middleware passes
    the request on, the selected route handler answers by itself and no
    error reaches the error-handling middleware: [/] and [/health] answer
    200 and an unmatched path 404, all three without any effect; [/search]
    answers 200, 400 or 500. *)
Theorem server_always_answers (w : World) (nodeEnv : option string)
  (pre : Preroute) (e : Endpoint) (req : Request) :
  exists (log : list Effect) (resp : AppResponse),
    server w nodeEnv pre e req = (log, inr resp) /\
    match pre with
    | Raised err =>
        log = [ConsoleError "Server error:" err] /\ app_status resp = 500 /\
        (exists message,
            app_body resp = ServerErrorBody "Internal server error" message)
    | PassedOn =>
        (forall message, ConsoleError "Server error:" message ∉ log) /\
        match e with
        | RootEndpoint | HealthEndpoint => app_status resp = 200 /\ log = []
        | Unmatched => app_status resp = 404 /\ log = []
        | SearchEndpoint =>
            app_status resp = 200 \/ app_status resp = 400
            \/ app_status resp = 500
        end
    end.
Proof.
  destruct pre as [|err].
  - destruct (application_always_answers w nodeEnv e req)
      as (log & resp & Heq & Hrest).
    exists log, resp. split; [exact Heq|exact Hrest].
  - do 2 eexists. split; [reflexivity|].
    split; [reflexivity|]. split; [reflexivity|]. eexists. reflexivity.
Qed.

(** X14: a [q] that is not a string (a repeated or bracketed parameter) is
    not rejected with 400: [query.trim] is not a function, the error is
    caught, and the request is answered with status 500 and the scrape
    failure body carrying that error's message; the engine is not invoked
    and no response header is set. *)
Theorem search_non_string_query (w : World) (req : Request) :
  q req = Structured ->
  snd (searchHandler w req)
  = inr {| status := 500;
           body := FailureBody false "Failed to scrape Google"
                     "query.trim is not a function"
                     "Try again later or reduce the number of pages" |} /\
  engineCalls (fst (searchHandler w req)) = 0%nat /\
  (forall name value, SetHeader name value ∉ fst (searchHandler w req)).
Proof.
  intros Hq. rewrite (searchHandler_structured w req Hq).
  split; [reflexivity|]. split; [reflexivity|].
  intros name value Hin. apply list_elem_of_singleton in Hin. discriminate.
Qed.

Lemma search_non_string_query_witness :
  snd (searchHandler (sampleWorld sampleEngine)
         {| q := Structured; pages := Some "2"; lang := None |})
  = inr {| status := 500;
           body := FailureBody false "Failed to scrape Google"
                     "query.trim is not a function"
                     "Try again later or reduce the number of pages" |}.
Proof.
  refine (proj1 (search_non_string_query (sampleWorld sampleEngine)
                   {| q := Structured; pages := Some "2"; lang := None |} _)).
  reflexivity.
Defined.

(** X15: every [/search] response, whatever the request and whatever the
    engine does, carries results whose titles are pairwise different and
    not empty. *)
Theorem search_results_distinct_nonempty_titles (w : World) (req : Request)
  (log : list Effect) (resp : Response) :
  searchHandler w req = (log, inr resp) ->
  NoDup (titles (responseResults resp)) /\
  (forall r, r ∈ responseResults resp -> title r <> "").
Proof.
  intros H.
  assert (resp = badRequest \/ (exists m, resp = scrapeFailure m) \/
          exists cs p, responseResults resp = normalize (collect cs) p)
    as Hcases.
  { destruct (q req) as [|s|] eqn:Hq.
    - left. unfold searchHandler in H. rewrite Hq in H. now inversion H.
    - destruct (String.eqb_spec (JS.trim s) "") as [Hs|Hs].
      + left. unfold searchHandler in H.
        rewrite Hq, (validateQuery_missing s Hs) in H. now inversion H.
      + destruct (rejected
                    (scrape w
                       (config (JS.encodeURIComponent s)
                          (default "en" (lang req)))
                       (root (JS.parseInt (default "1" (pages req))))))
          as [message|] eqn:Hrun.
        * right. left. exists message.
          rewrite (searchHandler_rejected w req s message Hq Hs Hrun) in H.
          now inversion H.
        * right. right.
          rewrite (searchHandler_resolved w req s Hq Hs Hrun) in H.
          inversion H. do 2 eexists. reflexivity.
    - right. left. eexists.
      rewrite (searchHandler_structured w req Hq) in H. now inversion H. }
  destruct Hcases as [->|[[m ->]|(cs & p & ->)]].
  - split; [constructor|]. intros r Hr. inversion Hr.
  - split; [constructor|]. intros r Hr. inversion Hr.
  - split; [apply normalize_NoDup|].
    intros r Hr.
    assert (title r ∈ titles (collect cs)) as Hin.
    { unfold titles. apply list_elem_of_fmap_2.
      eapply elem_of_sublist; [exact Hr|].
      etransitivity; [apply prefix_sublist, normalize_prefix|].
      rewrite uniqueResults_firstOccurrences. apply keepFirst_sublist. }
    unfold collect in Hin. apply fold_runCallback_titles in Hin.
    destruct Hin as [Hin|[Hne _]]; [inversion Hin|exact Hne].
Qed.

Lemma search_results_distinct_nonempty_titles_witness :
  NoDup (titles (responseResults
                   {| status := 200;
                      body := SearchBody true "nodejs" (JS.Int 1) (JS.Int 10)
                                "2024-01-01T00:00:00.000Z"
                                (take 10 sampleBuffer) |})).
Proof.
  refine (proj1 (search_results_distinct_nonempty_titles
                   (sampleWorld sampleEngine) (sampleRequest "nodejs" None)
                   _ _ _)).
  vm_compute. reflexivity.
Defined.

(** X16: outside development mode the error-handling middleware never puts
    the error's message into the response: the response is the same for
    every error, with status 500.  Only [NODE_ENV] equal to ["development"]
    echoes the message. *)
Theorem errorHandler_hides_message (nodeEnv : option string)
  (err err' : string) :
  nodeEnv <> Some "development" ->
  snd (errorHandler nodeEnv err) = snd (errorHandler nodeEnv err') /\
  snd (errorHandler nodeEnv err)
  = inr {| app_status := 500;
           app_body := ServerErrorBody "Internal server error" None |} /\
  snd (errorHandler (Some "development") err)
  = inr {| app_status := 500;
           app_body := ServerErrorBody "Internal server error" (Some err) |}.
Proof.
  intros Henv.
  assert (forall e, snd (errorHandler nodeEnv e)
                    = inr {| app_status := 500;
                             app_body :=
                               ServerErrorBody "Internal server error" None |})
    as Hnone.
  { intros e. unfold errorHandler. destruct nodeEnv as [env|]; [|reflexivity].
    destruct (String.eqb_spec env "development") as [->|_]; [|reflexivity].
    contradiction. }
  split; [rewrite !Hnone; reflexivity|]. split; [apply Hnone|reflexivity].
Qed.

Lemma errorHandler_hides_message_witness :
  snd (errorHandler (Some "production") "secret path /etc/app")
  = snd (errorHandler (Some "production") "other").
Proof.
  refine (proj1 (errorHandler_hides_message (Some "production") _ _ _)).
  discriminate.
Defined.

(** ** Start URL *)

Lemma list_ascii_of_string_append (a b : string) :
  list_ascii_of_string (a +:+ b)
  = list_ascii_of_string a ++ list_ascii_of_string b.
Proof. induction a as [|c a IH]; [reflexivity|]. simpl. now rewrite IH. Qed.

Lemma percentEncode_safe (c : ascii) :
  Forall (fun d => JS.uriUnreserved d = true \/ d = "%"%char)
    (JS.percentEncode c).
Proof.
  destruct c as [[] [] [] [] [] [] [] []];
    (constructor; [right; reflexivity|]);
    (constructor; [left; reflexivity|]);
    (constructor; [left; reflexivity|]); constructor.
Qed.

Lemma encodeURIComponent_chars (query : string) :
  Forall (fun d => JS.uriUnreserved d = true \/ d = "%"%char)
    (list_ascii_of_string (JS.encodeURIComponent query)).
Proof.
  unfold JS.encodeURIComponent. rewrite list_ascii_of_string_of_list_ascii.
  induction (list_ascii_of_string query) as [|c l IH]; [constructor|].
  cbn [map concat]. apply Forall_app. split; [|exact IH].
  destruct (JS.uriUnreserved c) eqn:Hc.
  - constructor; [now left|constructor].
  - apply percentEncode_safe.
Qed.

(** X17: the query cannot change the shape of the start URL: its encoded
    form consists of unreserved characters and [%] only, so it contains
    none of [&], [=], [#], [?], [/], [+] or a space, and the URL handed to
    the engine is [https://www.google.com/search?q=<encoded>&hl=<lang>]. *)
Theorem startUrl_query_is_escaped (query lang : string) :
  startUrl (config (JS.encodeURIComponent query) lang)
  = "https://www.google.com/search?q=" +:+ JS.encodeURIComponent query
    +:+ "&hl=" +:+ lang /\
  Forall (fun d => JS.uriUnreserved d = true \/ d = "%"%char)
    (list_ascii_of_string (JS.encodeURIComponent query)) /\
  (forall d : ascii,
      d ∈ list_ascii_of_string "&=#?/+ " ->
      d ∉ list_ascii_of_string (JS.encodeURIComponent query)).
Proof.
  split; [reflexivity|]. split; [apply encodeURIComponent_chars|].
  intros d Hd Hin.
  pose proof (encodeURIComponent_chars query) as Hsafe.
  rewrite Forall_forall in Hsafe. specialize (Hsafe d Hin).
  cbn in Hd. rewrite !elem_of_cons in Hd.
  destruct Hd as [->|[->|[->|[->|[->|[->|[->|Hd]]]]]]];
    try (destruct Hsafe as [Hsafe|Hsafe]; discriminate).
  inversion Hd.
Qed.

Lemma startUrl_query_is_escaped_witness :
  "&"%char ∉ list_ascii_of_string (JS.encodeURIComponent "a&start=90").
Proof.
  refine (proj2 (proj2 (startUrl_query_is_escaped "a&start=90" "en")) _ _).
  cbn. left.
Defined.

Lemma percentDecode_encode (c : ascii) :
  percentDecode (JS.percentEncode c) = c.
Proof. destruct c as [[] [] [] [] [] [] [] []]; reflexivity. Qed.

Lemma encode_chars_inj (l1 : list ascii) :
  forall l2 : list ascii,
    concat (map (fun c => if JS.uriUnreserved c then [c]
                          else JS.percentEncode c) l1)
    = concat (map (fun c => if JS.uriUnreserved c then [c]
                            else JS.percentEncode c) l2) ->
    l1 = l2.
Proof.
  induction l1 as [|x l1 IH]; intros [|y l2] H; cbn [map concat] in H.
  - reflexivity.
  - exfalso. destruct (JS.uriUnreserved y); discriminate.
  - exfalso. destruct (JS.uriUnreserved x); discriminate.
  - destruct (JS.uriUnreserved x) eqn:Hx; destruct (JS.uriUnreserved y) eqn:Hy.
    + cbn in H. injection H as -> H. f_equal. now apply IH.
    + exfalso. cbn in H. injection H as -> _. discriminate.
    + exfalso. cbn in H. injection H as <- _. discriminate.
    + unfold JS.percentEncode in H. cbn [app] in H.
      injection H as H1 H2 H.
      assert (x = y) as ->.
      { rewrite <- (percentDecode_encode x), <- (percentDecode_encode y).
        unfold JS.percentEncode. rewrite H1, H2. reflexivity. }
      f_equal. now apply IH.
Qed.

Lemma encodeURIComponent_inj (q1 q2 : string) :
  JS.encodeURIComponent q1 = JS.encodeURIComponent q2 -> q1 = q2.
Proof.
  unfold JS.encodeURIComponent. intros H.
  apply (f_equal list_ascii_of_string) in H.
  rewrite !list_ascii_of_string_of_list_ascii in H.
  apply encode_chars_inj in H.
  apply (f_equal string_of_list_ascii) in H.
  now rewrite !string_of_list_ascii_of_string in H.
Qed.

(** X18: the start URL determines the query: for one language, two
    different queries never lead to the same start URL (the percent
    encoding can be read back byte by byte). *)
Theorem startUrl_determines_query (q1 q2 lang : string) :
  startUrl (config (JS.encodeURIComponent q1) lang)
  = startUrl (config (JS.encodeURIComponent q2) lang) ->
  q1 = q2.
Proof.
  cbn [startUrl config]. intros H.
  apply (f_equal list_ascii_of_string) in H.
  rewrite !list_ascii_of_string_append in H.
  apply app_inv_head in H. apply app_inv_tail in H.
  apply encodeURIComponent_inj.
  apply (f_equal string_of_list_ascii) in H.
  now rewrite !string_of_list_ascii_of_string in H.
Qed.

Lemma startUrl_determines_query_witness : "node js" = "node js".
Proof. apply (startUrl_determines_query "node js" "node js" "en"). reflexivity. Defined.

(** ** Pagination for page counts below one *)

(** X19: for a page count that is zero, negative or [NaN] the descriptor
    handed to [Root] describes no page at all: its [end] is below its
    [begin] (or is [NaN]), so the test [begin <= end] fails at once and no
    start offset is produced. *)
Theorem pagination_without_pages (pages : JS.number) :
  pages = JS.NaN \/ (exists p : Z, pages = JS.Int p /\ p <= 0) ->
  let d := pagination (root pages) in
  JS.leb (begin d) (end_ d) = false /\ paginationOffsets d = [].
Proof.
  intros [->|(p & -> & Hp)] d; [split; reflexivity|].
  unfold d, root, paginationOffsets. cbn.
  split; [apply Z.leb_gt; lia|].
  replace (Z.to_nat ((p - 1) * 10 - 0 + 1)) with 0%nat by lia. reflexivity.
Qed.

Lemma pagination_without_pages_witness :
  paginationOffsets (pagination (root (JS.Int 0))) = [] /\
  paginationOffsets (pagination (root JS.NaN)) = [].
Proof.
  split.
  - apply (pagination_without_pages (JS.Int 0)). right. exists 0.
    split; [reflexivity|lia].
  - apply (pagination_without_pages JS.NaN). left. reflexivity.
Defined.

(** ** The link filter *)

Lemma startsWith_spec (p : string) :
  forall s : string,
    JS.startsWith s p = true <-> exists post, s = p +:+ post.
Proof.
  induction p as [|a p IH]; intros s; simpl.
  - split; [intros _; now exists s|intros _; destruct s; reflexivity].
  - destruct s as [|b s].
    + split; [discriminate|]. intros [post H]. discriminate.
    + cbn [JS.startsWith]. rewrite andb_true_iff, Ascii.eqb_eq, IH. split.
      * intros [-> [post ->]]. now exists post.
      * intros [post H]. injection H as -> ->. split; [reflexivity|].
        now exists post.
Qed.

Lemma includes_start (s sub : string) :
  JS.startsWith s sub = true -> JS.includes s sub = true.
Proof. intros H. destruct s; cbn [JS.includes]; rewrite H; reflexivity. Qed.

Lemma includes_spec (sub : string) :
  forall s : string,
    JS.includes s sub = true <-> exists pre post, s = pre +:+ sub +:+ post.
Proof.
  intros s. split.
  - induction s as [|c s IH]; cbn [JS.includes]; intros H.
    + rewrite orb_false_r in H.
      apply startsWith_spec in H as [post ->]. now exists "", post.
    + apply orb_true_iff in H as [H|H].
      * apply startsWith_spec in H as [post H]. now exists "", post.
      * destruct (IH H) as (pre & post & ->). now exists (String c pre), post.
  - intros (pre & post & ->). induction pre as [|c pre IH].
    + apply includes_start, startsWith_spec. now exists post.
    + change (String c pre +:+ sub +:+ post)
        with (String c (pre +:+ sub +:+ post)).
      cbn [JS.includes]. rewrite IH. apply orb_true_r.
Qed.

(** X20: the link filter accepts an element exactly when it has a non-empty
    [href] that contains ["google.com"] nowhere and does not begin with
    ["/"]; an element without [href] is refused.  In particular a link to
    any other site is refused as soon as ["google.com"] occurs anywhere in
    its address. *)
Theorem condition_spec :
  condition None = false /\
  (forall h : string,
      condition (Some h) = true <->
      h <> "" /\
      (forall pre post, h <> pre +:+ "google.com" +:+ post) /\
      (forall rest, h <> "/" +:+ rest)) /\
  (forall pre post : string,
      condition (Some (pre +:+ "google.com" +:+ post)) = false).
Proof.
  assert (forall h : string,
             condition (Some h) = true <->
             h <> "" /\
             (forall pre post, h <> pre +:+ "google.com" +:+ post) /\
             (forall rest, h <> "/" +:+ rest)) as Hspec.
  { intros h. unfold condition, JS.truthy.
    rewrite !andb_true_iff, !negb_true_iff, String.eqb_neq.
    rewrite <- !not_true_iff_false, includes_spec, startsWith_spec.
    split.
    - intros [[Hne Hinc] Hstart]. split; [assumption|]. split.
      + intros pre post Heq. apply Hinc. now exists pre, post.
      + intros rest Heq. apply Hstart. now exists rest.
    - intros (Hne & Hinc & Hstart). split; [split; [assumption|]|].
      + intros (pre & post & Heq). now apply (Hinc pre post).
      + intros (rest & Heq). now apply (Hstart rest). }
  split; [reflexivity|]. split; [exact Hspec|].
  intros pre post.
  destruct (condition (Some (pre +:+ "google.com" +:+ post))) eqn:Hc;
    [|reflexivity].
  apply Hspec in Hc as (_ & Hinc & _). exfalso. now apply (Hinc pre post).
Qed.

Lemma condition_spec_witness :
  condition (Some "https://example.com/?from=google.com") = false.
Proof.
  apply (proj2 (proj2 condition_spec) "https://example.com/?from=" "").
Defined.

(** X21: on the elements its collector selects ([a[href^="http"]], so the
    [href] begins with ["http"]) the filter is decided by the
    ["google.com"] test alone: the [startsWith("/")] test never refuses
    such a link. *)
Theorem condition_on_http_links (rest : string) :
  condition (Some ("http" +:+ rest))
  = negb (JS.includes ("http" +:+ rest) "google.com").
Proof.
  unfold condition. cbn [String.append JS.truthy JS.startsWith].
  replace (String.eqb (String "h" ("ttp" +:+ rest)) "") with false
    by reflexivity.
  cbn. rewrite andb_true_r. reflexivity.
Qed.

(** ** The two outcomes of a valid search *)

(** X22: when the trimmed query is not empty and the scrape resolves, the
    handler sets the two response headers, invokes the engine once with the
    configuration built from the query as sent (not trimmed) and answers
    200; the body echoes that query, gives [pages] as [parseInt] read it,
    [totalResults] as the number of results, the clock as [timestamp], and
    the normalized buffer as [results]. *)
Theorem search_success (w : World) (req : Request) (query : string) :
  q req = Text query -> JS.trim query <> "" ->
  let pagesN := JS.parseInt (default "1" (pages req)) in
  let cfg := config (JS.encodeURIComponent query) (default "en" (lang req)) in
  let run := scrape w cfg (root pagesN) in
  rejected run = None ->
  searchHandler w req =
  ( [ SetHeader "Access-Control-Allow-Origin" "*";
      SetHeader "Content-Type" "application/json";
      Scrape cfg (root pagesN) ],
    inr {| status := 200;
           body := SearchBody true query pagesN
                     (JS.length (normalize (collect (callbacks run)) pagesN))
                     (now w)
                     (normalize (collect (callbacks run)) pagesN) |} ).
Proof. intros Hq Hvalid. exact (searchHandler_resolved w req query Hq Hvalid). Qed.

Lemma search_success_witness :
  snd (searchHandler (sampleWorld sampleEngine)
         (sampleRequest "  node js " (Some "1")))
  = inr {| status := 200;
           body := SearchBody true "  node js " (JS.Int 1) (JS.Int 10)
                     "2024-01-01T00:00:00.000Z" (take 10 sampleBuffer) |}.
Proof.
  rewrite (search_success (sampleWorld sampleEngine)
             (sampleRequest "  node js " (Some "1")) "  node js ");
    [reflexivity|reflexivity|vm_compute; discriminate|reflexivity].
Defined.

(** X23: when the trimmed query is not empty and the scrape is rejected,
    everything the callbacks collected is dropped: the handler logs the
    error and answers with status 500 and the body [{success: false,
    error: "Failed to scrape Google", message: <the error's message>,
    suggestion: ...}], which carries no results; the answer does not depend
    on the callbacks the engine had invoked before failing. *)
Theorem search_failure (w : World) (req : Request) (query message : string) :
  q req = Text query -> JS.trim query <> "" ->
  let pagesN := JS.parseInt (default "1" (pages req)) in
  let cfg := config (JS.encodeURIComponent query) (default "en" (lang req)) in
  rejected (scrape w cfg (root pagesN)) = Some message ->
  searchHandler w req =
  ( [ SetHeader "Access-Control-Allow-Origin" "*";
      SetHeader "Content-Type" "application/json";
      Scrape cfg (root pagesN);
      ConsoleError "Scraping error:" message ],
    inr {| status := 500;
           body := FailureBody false "Failed to scrape Google" message
                     "Try again later or reduce the number of pages" |} ) /\
  (forall resp : Response,
      snd (searchHandler w req) = inr resp -> responseResults resp = []).
Proof.
  intros Hq Hvalid pagesN cfg Hrun.
  rewrite (searchHandler_rejected w req query message Hq Hvalid Hrun).
  split; [reflexivity|].
  intros resp Hresp. cbn [snd] in Hresp. injection Hresp as <-. reflexivity.
Qed.

Lemma search_failure_witness :
  snd (searchHandler (sampleWorld failingEngine) (sampleRequest "nodejs" None))
  = inr {| status := 500;
           body := FailureBody false "Failed to scrape Google" "Network Error"
                     "Try again later or reduce the number of pages" |}.
Proof.
  rewrite (proj1 (search_failure (sampleWorld failingEngine)
                    (sampleRequest "nodejs" None) "nodejs" "Network Error"
                    eq_refl ltac:(vm_compute; discriminate) eq_refl)).
  reflexivity.
Defined.

(** X24: a request without [pages] is a request for one page: the engine
    gets a descriptor whose only start offset is [0], and a resolved scrape
    is answered with at most ten results. *)
Theorem search_default_is_one_page (w : World) (req : Request)
  (query : string) :
  q req = Text query -> JS.trim query <> "" -> pages req = None ->
  let cfg := config (JS.encodeURIComponent query) (default "en" (lang req)) in
  Scrape cfg (root (JS.Int 1)) ∈ fst (searchHandler w req) /\
  paginationOffsets (pagination (root (JS.Int 1))) = [0] /\
  (forall resp : Response,
      snd (searchHandler w req) = inr resp ->
      (List.length (responseResults resp) <= 10)%nat).
Proof.
  intros Hq Hvalid Hpages cfg.
  assert (JS.parseInt (default "1" (pages req)) = JS.Int 1) as HpagesN
    by (rewrite Hpages; reflexivity).
  destruct (rejected (scrape w cfg (root (JS.Int 1)))) as [message|] eqn:Hrun.
  - unfold cfg in Hrun. rewrite <- HpagesN in Hrun.
    rewrite (searchHandler_rejected w req query message Hq Hvalid Hrun).
    rewrite HpagesN. split; [|split; [reflexivity|]].
    + cbn [fst]. rewrite !elem_of_cons. right. right. now left.
    + intros resp Hresp. cbn [snd] in Hresp. injection Hresp as <-.
      cbn. lia.
  - unfold cfg in Hrun. rewrite <- HpagesN in Hrun.
    rewrite (searchHandler_resolved w req query Hq Hvalid Hrun).
    rewrite HpagesN. split; [|split; [reflexivity|]].
    + cbn [fst]. rewrite !elem_of_cons. right. right. now left.
    + intros resp Hresp. cbn [snd] in Hresp. injection Hresp as <-.
      unfold responseResults. cbn [body].
      pose proof (normalize_length_bound
                    (fold_left runCallback
                       (callbacks
                          (scrape w
                             (config (JS.encodeURIComponent query)
                                (default "en" (lang req)))
                             (root (JS.Int 1)))) []) 1).
      lia.
Qed.

Lemma search_default_is_one_page_witness :
  paginationOffsets (pagination (root (JS.Int 1))) = [0].
Proof.
  refine (proj1 (proj2 (search_default_is_one_page
                          (sampleWorld sampleEngine)
                          (sampleRequest "nodejs" None) "nodejs" _ _ _)));
    [reflexivity|vm_compute; discriminate|reflexivity].
Defined.

(** ** Which queries pass the validator *)

Lemma stripPrefix_Some (p : list ascii) :
  forall l r : list ascii, JS.stripPrefix p l = Some r -> l = p ++ r.
Proof.
  induction p as [|a p IH]; intros l r H; simpl in H.
  - now injection H as ->.
  - destruct l as [|b l]; [discriminate|].
    destruct (Ascii.eqb_spec a b) as [->|_]; [|discriminate].
    simpl. f_equal. now apply IH.
Qed.

Lemma stripAny_Some (table : list (list ascii)) (l r : list ascii) :
  JS.stripAny table l = Some r -> exists p, p ∈ table /\ l = p ++ r.
Proof.
  induction table as [|p table IH]; simpl; [discriminate|].
  destruct (JS.stripPrefix p l) as [r'|] eqn:Hp.
  - intros H. injection H as ->. exists p. split; [left|].
    now apply stripPrefix_Some.
  - intros H. destruct (IH H) as (p' & Hin & Heq).
    exists p'. split; [now right|assumption].
Qed.

Lemma dropLeading_keeps (table : list (list ascii)) (c : ascii) :
  (forall p, p ∈ table -> c ∉ p) ->
  forall (fuel : nat) (l : list ascii),
    c ∈ l -> c ∈ JS.dropLeading table fuel l.
Proof.
  intros Hplain. induction fuel as [|fuel IH]; intros l Hc; [exact Hc|].
  cbn [JS.dropLeading]. destruct l as [|b l]; [inversion Hc|].
  destruct (JS.stripAny table (b :: l)) as [r|] eqn:Hstrip; [|exact Hc].
  apply IH. apply stripAny_Some in Hstrip as (p & Hp & Heq).
  rewrite Heq in Hc. apply elem_of_app in Hc as [Hc|Hc]; [|exact Hc].
  exfalso. now apply (Hplain p).
Qed.

Lemma plainByte_spec (c : ascii) :
  plainByte c = true -> forall p, p ∈ JS.whiteSpace -> c ∉ p.
Proof.
  unfold plainByte. rewrite forallb_forall. intros H p Hp Hc.
  apply list_elem_of_In in Hp. specialize (H p Hp).
  apply negb_true_iff in H.
  assert (existsb (Ascii.eqb c) p = true) as Hex; [|congruence].
  apply existsb_exists. exists c. split; [now apply list_elem_of_In|].
  apply Ascii.eqb_refl.
Qed.

Lemma elem_of_rev {A} (x : A) (l : list A) : x ∈ rev l <-> x ∈ l.
Proof. rewrite !list_elem_of_In. symmetry. apply in_rev. Qed.

Lemma trim_keeps_plain (s : string) (c : ascii) :
  c ∈ list_ascii_of_string s -> plainByte c = true -> JS.trim s <> "".
Proof.
  intros Hc Hplain. unfold JS.trim, JS.trimEndChars, JS.trimStartChars.
  set (l := JS.dropLeading JS.whiteSpace _ (list_ascii_of_string s)).
  assert (c ∈ l) as Hl.
  { apply dropLeading_keeps; [apply plainByte_spec|]; assumption. }
  set (l' := JS.dropLeading _ _ (rev l)).
  assert (c ∈ rev l') as Hl'.
  { apply elem_of_rev. apply dropLeading_keeps.
    - intros p Hp Hcp.
      apply list_elem_of_fmap in Hp as (p0 & -> & Hp0).
      apply (plainByte_spec c Hplain p0 Hp0). now apply elem_of_rev.
    - now apply elem_of_rev. }
  destruct (rev l') as [|b k]; [inversion Hl'|]. discriminate.
Qed.

(** X25: a query that contains at least one byte outside every white-space
    encoding (any ASCII letter, digit or punctuation mark) is never answered
    with 400: it passes the validator unchanged and the engine is invoked
    once. *)
Theorem search_accepts_visible_query (w : World) (req : Request)
  (query : string) (c : ascii) :
  q req = Text query ->
  c ∈ list_ascii_of_string query -> plainByte c = true ->
  validateQuery (q req) = ([], inr (Some query)) /\
  engineCalls (fst (searchHandler w req)) = 1%nat /\
  (forall resp, snd (searchHandler w req) = inr resp -> status resp <> 400).
Proof.
  intros Hq Hc Hplain.
  pose proof (trim_keeps_plain query c Hc Hplain) as Hvalid.
  split; [rewrite Hq; now apply validateQuery_valid|].
  destruct (rejected
              (scrape w
                 (config (JS.encodeURIComponent query)
                    (default "en" (lang req)))
                 (root (JS.parseInt (default "1" (pages req))))))
    as [message|] eqn:Hrun.
  - rewrite (searchHandler_rejected w req query message Hq Hvalid Hrun).
    split; [reflexivity|]. intros resp H. injection H as <-. discriminate.
  - rewrite (searchHandler_resolved w req query Hq Hvalid Hrun).
    split; [reflexivity|]. intros resp H. injection H as <-. discriminate.
Qed.

Lemma search_accepts_visible_query_witness :
  engineCalls
    (fst (searchHandler (sampleWorld sampleEngine)
            (sampleRequest "  x " None))) = 1%nat.
Proof.
  refine (proj1 (proj2 (search_accepts_visible_query
                          (sampleWorld sampleEngine)
                          (sampleRequest "  x " None) "  x " "x"%char
                          eq_refl _ eq_refl))).
  cbn. right. right. left.
Defined.

Lemma whiteSpace_step (p : list ascii) :
  p ∈ JS.whiteSpace ->
  (1 <= List.length p)%nat /\
  forall (fuel : nat) (r : list ascii),
    JS.dropLeading JS.whiteSpace (S fuel) (p ++ r)
    = JS.dropLeading JS.whiteSpace fuel r.
Proof.
  intros Hp. unfold JS.whiteSpace in Hp. cbn in Hp.
  repeat (apply elem_of_cons in Hp as [->|Hp];
          [split; [cbn; lia|intros fuel r; reflexivity]|]).
  inversion Hp.
Qed.

Lemma dropLeading_white (ps : list (list ascii)) :
  Forall (fun p => p ∈ JS.whiteSpace) ps ->
  forall fuel : nat,
    (List.length (concat ps) <= fuel)%nat ->
    JS.dropLeading JS.whiteSpace fuel (concat ps) = [].
Proof.
  induction 1 as [|p ps Hp _ IH]; intros fuel Hfuel.
  - destruct fuel; reflexivity.
  - destruct (whiteSpace_step p Hp) as [Hlen Hstep].
    cbn [concat] in *. rewrite length_app in Hfuel.
    destruct fuel as [|fuel]; [lia|].
    rewrite Hstep. apply IH. lia.
Qed.

(** X26: a query made of white-space characters only (spaces, tabs, line
    ends, no-break and other Unicode spaces, in any number and order) is
    treated as missing: status 400, no effect, no engine call. *)
Theorem search_rejects_blank_query (w : World) (req : Request)
  (ps : list (list ascii)) :
  Forall (fun p => p ∈ JS.whiteSpace) ps ->
  q req = Text (string_of_list_ascii (concat ps)) ->
  JS.trim (string_of_list_ascii (concat ps)) = "" /\
  searchHandler w req = ([], inr badRequest).
Proof.
  intros Hps Hq.
  assert (JS.trim (string_of_list_ascii (concat ps)) = "") as Htrim.
  { unfold JS.trim, JS.trimStartChars.
    rewrite list_ascii_of_string_of_list_ascii.
    rewrite (dropLeading_white ps Hps) by lia. reflexivity. }
  split; [exact Htrim|].
  unfold searchHandler. rewrite Hq, (validateQuery_missing _ Htrim).
  reflexivity.
Qed.

Lemma search_rejects_blank_query_witness :
  searchHandler (sampleWorld sampleEngine) (sampleRequest "   " None)
  = ([], inr badRequest).
Proof.
  refine (proj2 (search_rejects_blank_query (sampleWorld sampleEngine)
                   (sampleRequest "   " None)
                   [JS.utf8 [32%N]; JS.utf8 [32%N]; JS.utf8 [32%N]] _ _));
    [|reflexivity].
  repeat constructor; apply (bool_decide_unpack _); vm_compute; exact I.
Defined.

(** ** A plain decimal [pages] *)






